(** * Retrieval-and-analysis pipeline of the document question answering service

    A shallow embedding of
      - [supabase/functions/analyze-document/index.ts] (the edge function that
        ranks the stored chunks of a document against a question, calls the
        reasoning gateway, repairs its answer and stores the exchange), and
      - the [QueryInterface] component (the form that submits a question),
    together with the properties the specification states about them.

    Strings are [String.string]; one [ascii] stands for one UTF-16 code unit
    in the range 0..255.  The runtime builtins the code relies on and whose
    full definition lives in the JavaScript engine ([String.prototype.toLowerCase],
    [JSON.parse]) are variables of the sections below, so every general
    theorem holds whatever these builtins compute; the concrete instances
    [toLowerCase_latin1] and [JSON_parse_model] are used on concrete inputs. *)

From Stdlib Require Import List String Ascii ZArith Lia Bool Arith Sorted Permutation.
From Stdlib Require Import DecimalString.
Import ListNotations.

Local Open Scope string_scope.
Local Open Scope Z_scope.
Local Set Warnings "-register-all".

(* ================================================================= *)
(** ** JavaScript strings and arrays: the builtins the code calls *)

Module Js.

(** [s.length] *)
Definition len (s : string) : Z := Z.of_nat (String.length s).

(** [s.startsWith(p)], the position-wise test behind [includes]. *)
Fixpoint startsWith (s p : string) {struct p} : bool :=
  match p, s with
  | EmptyString, _ => true
  | String a p', String b s' => Ascii.eqb a b && startsWith s' p'
  | String _ _, EmptyString => false
  end.

(** [s.includes(sub)]: some position of [s] starts an occurrence of [sub].
    The empty string is included in every string. *)
Fixpoint includes (s sub : string) : bool :=
  startsWith s sub
  || match s with
     | EmptyString => false
     | String _ s' => includes s' sub
     end.

Fixpoint drop (n : nat) (s : string) : string :=
  match n, s with
  | O, _ => s
  | S n', String _ s' => drop n' s'
  | S _, EmptyString => EmptyString
  end.

Fixpoint take (n : nat) (s : string) : string :=
  match n, s with
  | S n', String c s' => String c (take n' s')
  | _, _ => EmptyString
  end.

(** [s.substring(start, end)]: both positions are clamped to [0, s.length]
    and swapped when [start > end]. *)
Definition substring (s : string) (start end_ : Z) : string :=
  let n := len s in
  let fs := Z.min (Z.max start 0) n in
  let fe := Z.min (Z.max end_ 0) n in
  let from := Z.min fs fe in
  let to := Z.max fs fe in
  take (Z.to_nat (to - from)) (drop (Z.to_nat from) s).

(** [s.replace(pat, rep)] for a string pattern: the first occurrence only. *)
Fixpoint replace (s pat rep : string) : string :=
  if startsWith s pat then rep ++ drop (String.length pat) s
  else match s with
       | EmptyString => EmptyString
       | String c s' => String c (replace s' pat rep)
       end.

(** [arr.join(sep)], as the language definition has it: a running result
    [R], the separator added before every element but the first. *)
Definition join (arr : list string) (sep : string) : string :=
  snd (fold_left
         (fun (st : nat * string) (e : string) =>
            let (k, R) := st in
            (S k, ((if Nat.eqb k 0 then R else R ++ sep) ++ e)%string))
         arr (O, EmptyString)).

(** [arr.slice(start, end)] for non-negative positions. *)
Definition slice {A : Type} (arr : list A) (start end_ : nat) : list A :=
  firstn (end_ - start) (skipn start arr).

(** White space and line terminators that [trim] removes, among the code
    units below 256: TAB, LF, VT, FF, CR, SP and NBSP. *)
Definition isWhiteSpace (c : ascii) : bool :=
  let n := nat_of_ascii c in
  (Nat.leb 9 n && Nat.leb n 13) || Nat.eqb n 32 || Nat.eqb n 160.

Fixpoint trimStart (s : string) : string :=
  match s with
  | EmptyString => EmptyString
  | String c s' => if isWhiteSpace c then trimStart s' else s
  end.

(** [trimEnd], right to left: a character is kept when it is not white
    space or when something is kept after it. *)
Fixpoint trimEnd (s : string) : string :=
  match s with
  | EmptyString => EmptyString
  | String c s' =>
      match trimEnd s' with
      | EmptyString => if isWhiteSpace c then EmptyString else String c EmptyString
      | t => String c t
      end
  end.

Definition trim (s : string) : string := trimEnd (trimStart s).

(** [arr.sort(cmp)]: the engine's sort is stable; for a comparator that is
    a consistent ordering the result is the one stable sorted arrangement,
    computed here by insertion from the right. *)
Section Sort.
Context {A : Type} (cmp : A -> A -> Z).

Fixpoint insert (x : A) (l : list A) : list A :=
  match l with
  | [] => [x]
  | y :: l' => if cmp x y <=? 0 then x :: l else y :: insert x l'
  end.

Fixpoint sort (l : list A) : list A :=
  match l with
  | [] => []
  | x :: l' => insert x (sort l')
  end.
End Sort.

End Js.

(** [sub] occurs in [s]. *)
Definition Contains (s sub : string) : Prop :=
  exists pre post : string, s = (pre ++ sub ++ post)%string.

(* ================================================================= *)
(** ** Data model *)

(** An element of [document.chunks]: [{ text: string; index: number }]. *)
Record Chunk := mkChunk { text : string; index : Z }.

(** A chunk after the [map] step of the ranking: [{ ...chunk, score }]. *)
Record ScoredChunk := mkScored { s_text : string; s_index : Z; score : Z }.

Definition unscored (c : ScoredChunk) : Chunk :=
  {| text := s_text c; index := s_index c |}.

(** JSON values, as [JSON.parse] returns them and [JSON.stringify] prints
    them.  A number is kept as the decimal it was written as,
    [mantissa * 10 ^ exponent]. *)
Inductive JsValue : Type :=
| JNull
| JBool (b : bool)
| JNumber (mantissa exponent : Z)
| JString (s : string)
| JArray (elements : list JsValue)
| JObject (fields : list (string * JsValue)).

(* ================================================================= *)
(** ** Relevance ranking and context assembly
       ([index.ts], lines 45 to 59) *)

Section Ranking.
Variable toLowerCase : string -> string.

(** [chunk.text.toLowerCase().includes(questionLower) ? 1 : 0] *)
Definition score_of (questionLower : string) (chunk : Chunk) : Z :=
  if Js.includes (toLowerCase (text chunk)) questionLower then 1 else 0.

Definition with_score (questionLower : string) (chunk : Chunk) : ScoredChunk :=
  {| s_text := text chunk; s_index := index chunk;
     score := score_of questionLower chunk |}.

(** The comparator of the [sort] step: [(a, b) => b.score - a.score]. *)
Definition by_score_desc (a b : ScoredChunk) : Z := score b - score a.

Definition relevantChunks (chunks : list Chunk) (question : string)
  : list ScoredChunk :=
  let questionLower := toLowerCase question in
  Js.slice
    (Js.sort by_score_desc
       (filter (fun chunk => 0 <? score chunk)
          (map (with_score questionLower) chunks)))
    0 3.

(** [relevantChunks.map((c) => c.text).join("\n\n")] *)
Definition newline : string := String (ascii_of_nat 10) EmptyString.
Definition paragraph_break : string := (newline ++ newline)%string.

Definition context_of (ranked : list ScoredChunk) : string :=
  Js.join (map s_text ranked) paragraph_break.

(** The normalized text of the chunk contains the normalized question. *)
Definition Matches (question : string) (c : Chunk) : Prop :=
  Contains (toLowerCase (text c)) (toLowerCase question).

Definition matches (question : string) (c : Chunk) : bool :=
  Js.includes (toLowerCase (text c)) (toLowerCase question).

(** The array the [sort] step receives. *)
Definition candidates (chunks : list Chunk) (question : string) : list ScoredChunk :=
  filter (fun chunk => 0 <? score chunk)
         (map (with_score (toLowerCase question)) chunks).

End Ranking.

(* ================================================================= *)
(** ** A model of the builtins on concrete inputs *)

(** [toLowerCase] on code units below 256: the upper-case letters A to Z and
    the accented capitals 192 to 222 (the sign 215 apart) move up by 32. *)
Definition lower_char (c : ascii) : ascii :=
  let n := nat_of_ascii c in
  if (Nat.leb 65 n && Nat.leb n 90)
     || (Nat.leb 192 n && Nat.leb n 222 && negb (Nat.eqb n 215))
  then ascii_of_nat (n + 32) else c.

Fixpoint toLowerCase_latin1 (s : string) : string :=
  match s with
  | EmptyString => EmptyString
  | String c s' => String (lower_char c) (toLowerCase_latin1 s')
  end.

Module Json.

Definition Input := list ascii.

(** The four white space characters of the JSON grammar. *)
Definition is_ws (c : ascii) : bool :=
  let n := nat_of_ascii c in
  Nat.eqb n 32 || Nat.eqb n 9 || Nat.eqb n 10 || Nat.eqb n 13.

Fixpoint skip_ws (l : Input) : Input :=
  match l with
  | c :: r => if is_ws c then skip_ws r else l
  | [] => []
  end.

Definition digit_of (c : ascii) : option Z :=
  let n := nat_of_ascii c in
  if Nat.leb 48 n && Nat.leb n 57 then Some (Z.of_nat (n - 48)) else None.

Definition hex_of (c : ascii) : option nat :=
  let n := nat_of_ascii c in
  if Nat.leb 48 n && Nat.leb n 57 then Some (n - 48)%nat
  else if Nat.leb 65 n && Nat.leb n 70 then Some (n - 55)%nat
  else if Nat.leb 97 n && Nat.leb n 102 then Some (n - 87)%nat
  else None.

(** The longest run of decimal digits at the front of the input. *)
Fixpoint digits (l : Input) : list Z * Input :=
  match l with
  | c :: r =>
      match digit_of c with
      | Some d => let (ds, r') := digits r in (d :: ds, r')
      | None => ([], l)
      end
  | [] => ([], [])
  end.

Definition value_of (ds : list Z) : Z :=
  fold_left (fun acc d => 10 * acc + d) ds 0.

Definition fraction (l : Input) : option (list Z * Input) :=
  match l with
  | "."%char :: r =>
      match digits r with
      | ([], _) => None
      | (fs, r') => Some (fs, r')
      end
  | _ => Some ([], l)
  end.

Definition exponent_part (l : Input) : option (Z * Input) :=
  let signed (neg : bool) (r : Input) :=
    match digits r with
    | ([], _) => None
    | (es, r') => Some ((if neg then - value_of es else value_of es), r')
    end in
  match l with
  | c :: r =>
      if Ascii.eqb c "e" || Ascii.eqb c "E" then
        match r with
        | "+"%char :: r' => signed false r'
        | "-"%char :: r' => signed true r'
        | _ => signed false r
        end
      else Some (0, l)
  | [] => Some (0, l)
  end.

(** A number: an optional minus sign; an integer part, either the digit 0
    or a digit 1 to 9 followed by digits; an optional fraction, a point and
    one digit or more; an optional exponent, e or E, an optional sign and one
    digit or more. *)
Definition number (l : Input) : option (JsValue * Input) :=
  let (neg, l1) :=
    match l with
    | "-"%char :: r => (true, r)
    | _ => (false, l)
    end in
  match digits l1 with
  | ([], _) => None
  | (0 :: _ :: _, _) => None
  | (ds, l2) =>
      match fraction l2 with
      | None => None
      | Some (fs, l3) =>
          match exponent_part l3 with
          | None => None
          | Some (e, l4) =>
              let m := value_of (ds ++ fs)%list in
              Some (JNumber (if neg then - m else m)
                            (e - Z.of_nat (List.length fs)), l4)
          end
      end
  end.

(** The character an escape letter stands for. *)
Definition escape (c : ascii) : option ascii :=
  match c with
  | "b"%char => Some (ascii_of_nat 8)
  | "f"%char => Some (ascii_of_nat 12)
  | "n"%char => Some (ascii_of_nat 10)
  | "r"%char => Some (ascii_of_nat 13)
  | "t"%char => Some (ascii_of_nat 9)
  | "/"%char => Some c
  | "\"%char => Some c
  | _ => if Nat.eqb (nat_of_ascii c) 34 then Some c else None
  end.

(** The characters of a string after its opening quote, up to the closing
    one.  A [\uXXXX] escape of a code unit above 255 has no counterpart among
    the characters modelled and is refused. *)
Fixpoint string_body (l : Input) : option (string * Input) :=
  match l with
  | [] => None
  | c :: r =>
      if Nat.eqb (nat_of_ascii c) 34 then Some (EmptyString, r)
      else if Nat.ltb (nat_of_ascii c) 32 then None
      else if Ascii.eqb c "\" then
        match r with
        | "u"%char :: h1 :: h2 :: h3 :: h4 :: r' =>
            match hex_of h1, hex_of h2, hex_of h3, hex_of h4 with
            | Some a, Some b, Some c', Some d =>
                let n := (((a * 16 + b) * 16 + c') * 16 + d)%nat in
                if Nat.ltb n 256 then
                  match string_body r' with
                  | Some (s, r'') => Some (String (ascii_of_nat n) s, r'')
                  | None => None
                  end
                else None
            | _, _, _, _ => None
            end
        | e :: r' =>
            match escape e with
            | Some ch =>
                match string_body r' with
                | Some (s, r'') => Some (String ch s, r'')
                | None => None
                end
            | None => None
            end
        | [] => None
        end
      else
        match string_body r with
        | Some (s, r') => Some (String c s, r')
        | None => None
        end
  end.

(** [obj[key] = v] while an object literal is read: a repeated key keeps its
    place and takes the later value. *)
Fixpoint set_field (fs : list (string * JsValue)) (key : string) (v : JsValue)
  : list (string * JsValue) :=
  match fs with
  | [] => [(key, v)]
  | (k, old) :: fs' =>
      if String.eqb k key then (k, v) :: fs' else (k, old) :: set_field fs' key v
  end.

Definition Parser (A : Type) := Input -> option (A * Input).

(** The elements of an array after the first bracket, [value] being the
    parser of one value.  The count bounds the number of elements read. *)
Fixpoint elements (value : Parser JsValue) (count : nat) (acc : list JsValue)
  : Parser (list JsValue) :=
  fun l =>
    match count with
    | O => None
    | S count' =>
        match value l with
        | None => None
        | Some (v, r) =>
            match skip_ws r with
            | ","%char :: r' => elements value count' (acc ++ [v])%list r'
            | "]"%char :: r' => Some ((acc ++ [v])%list, r')
            | _ => None
            end
        end
    end.

(** The members of an object after the first brace. *)
Fixpoint members (value : Parser JsValue) (count : nat)
  (acc : list (string * JsValue)) : Parser (list (string * JsValue)) :=
  fun l =>
    match count with
    | O => None
    | S count' =>
        match skip_ws l with
        | c :: r =>
            if Nat.eqb (nat_of_ascii c) 34 then
              match string_body r with
              | None => None
              | Some (key, r1) =>
                  match skip_ws r1 with
                  | ":"%char :: r2 =>
                      match value r2 with
                      | None => None
                      | Some (v, r3) =>
                          match skip_ws r3 with
                          | ","%char :: r4 =>
                              members value count' (set_field acc key v) r4
                          | "}"%char :: r4 => Some (set_field acc key v, r4)
                          | _ => None
                          end
                      end
                  | _ => None
                  end
              end
            else None
        | [] => None
        end
    end.

Definition keyword (word : string) (v : JsValue) : Parser JsValue :=
  fun l =>
    let w := list_ascii_of_string word in
    if String.eqb (string_of_list_ascii (firstn (List.length w) l)) word
    then Some (v, skipn (List.length w) l) else None.

(** One value, white space before it skipped.  [depth] bounds the nesting
    of arrays and objects; an input of [n] characters nests fewer than [n]
    deep and holds fewer than [n] elements. *)
Fixpoint value (depth : nat) : Parser JsValue :=
  fun l =>
    match depth with
    | O => None
    | S depth' =>
        match skip_ws l with
        | [] => None
        | c :: r =>
            if Ascii.eqb c "{" then
              match skip_ws r with
              | "}"%char :: r' => Some (JObject [], r')
              | _ =>
                  match members (value depth') (List.length r) [] r with
                  | Some (fs, r') => Some (JObject fs, r')
                  | None => None
                  end
              end
            else if Ascii.eqb c "[" then
              match skip_ws r with
              | "]"%char :: r' => Some (JArray [], r')
              | _ =>
                  match elements (value depth') (List.length r) [] r with
                  | Some (vs, r') => Some (JArray vs, r')
                  | None => None
                  end
              end
            else if Nat.eqb (nat_of_ascii c) 34 then
              match string_body r with
              | Some (s, r') => Some (JString s, r')
              | None => None
              end
            else if Ascii.eqb c "t" then keyword "true" (JBool true) (c :: r)
            else if Ascii.eqb c "f" then keyword "false" (JBool false) (c :: r)
            else if Ascii.eqb c "n" then keyword "null" JNull (c :: r)
            else number (c :: r)
        end
    end.

End Json.

(** [JSON.parse(text)] on the characters modelled: [None] stands for the
    [SyntaxError] it throws.  It is used on concrete inputs only, and agrees
    with the engine on texts whose strings hold no [\uXXXX] escape above
    255, whose numbers are integers a double holds exactly, and whose
    objects have no key that is an array index (the engine refuses no such
    escape, rounds a number to the nearest double, and lists index keys
    first). *)
Definition JSON_parse_model (text : string) : option JsValue :=
  let l := list_ascii_of_string text in
  match Json.value (S (List.length l)) l with
  | Some (v, rest) =>
      match Json.skip_ws rest with
      | [] => Some v
      | _ :: _ => None
      end
  | None => None
  end.

(* ================================================================= *)
(** ** The collaborators of the edge function *)

Record User := { user_id : string }.

(** A row of [documents]; the function reads its [chunks] column only. *)
Record Document := { doc_id : string; chunks : list Chunk }.

(** The object handed to [supabase.from("queries").insert]; a property that
    is [undefined] is [None]. *)
Record QueryRow := {
  document_id : string;
  row_user_id : string;
  row_question : string;
  answer : option JsValue;
  evidence : option JsValue;
  confidence_score : option JsValue;
  reasoning : option JsValue
}.

(** How an operation that may throw ends: with a value, or with the message
    of the error thrown. *)
Inductive Outcome (A : Type) :=
| Returned (a : A)
| Thrown (message : string).
Arguments Returned {A} a.
Arguments Thrown {A} message.

(** The body of the incoming request, [{ documentId, question }]. *)
Record RequestBody := { documentId : string; question : string }.

(** The incoming request: its method, its [Authorization] header when it
    has one, and how [req.json()] ends. *)
Record Request := {
  method : string;
  authorization : option string;
  json : Outcome RequestBody
}.

(** What the function posts to the reasoning gateway. *)
Record GatewayRequest := {
  bearer : string;
  model : string;
  system_content : string;
  user_content : string
}.

(** What comes back from the gateway:
    - [fetch] rejects (the service cannot be reached, the connection is
      cut or given up on);
    - a response whose [ok] is false, with its status and text;
    - an [ok] response that [response.json()] or the path
      [choices[0].message.content] cannot be read from;
    - an [ok] response with its message content. *)
Inductive FetchOutcome :=
| FetchRejects (message : string)
| NotOk (status : Z) (errorText : string)
| OkUnreadable (message : string)
| OkContent (content : string).

(** Everything outside the function that a run of it depends on. *)
Record Env := {
  LOVABLE_API_KEY : string;
  auth_getUser : string -> option User;
  documents_single : string -> option Document;
  fetch_gateway : GatewayRequest -> FetchOutcome;
  queries_insert_error : QueryRow -> option string
}.

Inductive ConsoleArg := Txt (s : string) | Num (n : Z) | Err (message : string).
Inductive ConsoleEntry :=
| console_log (args : list ConsoleArg)
| console_error (args : list ConsoleArg).

(** What a run changes: the [queries] table, the console, and the requests
    sent to the gateway. *)
Record World := {
  queries : list QueryRow;
  console : list ConsoleEntry;
  sent : list GatewayRequest
}.

(** The response of the function; [body] is the value given to
    [JSON.stringify], [None] for the empty body of the preflight answer. *)
Record Response := { status : Z; body : option JsValue }.

(* ================================================================= *)
(** ** Exceptions and effects *)

Definition M (A : Type) : Type := World -> Outcome A * World.

Definition ret {A : Type} (a : A) : M A := fun w => (Returned a, w).

Definition throw {A : Type} (message : string) : M A :=
  fun w => (Thrown message, w).

Definition bind {A B : Type} (m : M A) (k : A -> M B) : M B :=
  fun w =>
    match m w with
    | (Returned a, w') => k a w'
    | (Thrown e, w') => (Thrown e, w')
    end.

Notation "x <- m ;; k" := (bind m (fun x => k))
  (at level 61, m at next level, right associativity).
Notation "m ;;; k" := (bind m (fun _ => k))
  (at level 61, right associativity).

Definition log (args : list ConsoleArg) : M unit :=
  fun w => (Returned tt,
            {| queries := queries w;
               console := (console w ++ [console_log args])%list;
               sent := sent w |}).

Definition log_error (args : list ConsoleArg) : M unit :=
  fun w => (Returned tt,
            {| queries := queries w;
               console := (console w ++ [console_error args])%list;
               sent := sent w |}).

(** [await fetch(gateway, request)] *)
Definition fetch (env : Env) (request : GatewayRequest) : M FetchOutcome :=
  fun w => (Returned (fetch_gateway env request),
            {| queries := queries w;
               console := console w;
               sent := (sent w ++ [request])%list |}).

(** [await supabase.from("queries").insert(row)]: the client does not
    throw; it resolves to an object whose [error] is set when the row was
    not stored. *)
Definition insert (env : Env) (row : QueryRow) : M (option string) :=
  fun w =>
    match queries_insert_error env row with
    | Some e => (Returned (Some e), w)
    | None => (Returned None,
               {| queries := (queries w ++ [row])%list;
                  console := console w;
                  sent := sent w |})
    end.

(** [value.name] for a name that is on no builtin prototype: reading from
    [null] throws a [TypeError], an object gives its field, any other value
    gives [undefined]. *)
Definition get (v : JsValue) (name : string) : M (option JsValue) :=
  match v with
  | JNull => throw ("Cannot read properties of null (reading '" ++ name ++ "')")
  | JObject fs =>
      ret (match find (fun kv => String.eqb (fst kv) name) fs with
           | Some kv => Some (snd kv)
           | None => None
           end)
  | _ => ret None
  end.

(* ================================================================= *)
(** ** The edge function ([index.ts], lines 10 to 145) *)

Definition dq : string := String (ascii_of_nat 34) EmptyString.
Definition quoted (s : string) : string := dq ++ s ++ dq.

Definition lines (ls : list string) : string := Js.join ls newline.

(** The instruction sent as the system message. *)
Definition systemPrompt : string :=
  lines
    [ "You are a policy analysis assistant. Based on the context provided, answer the user's question.";
      "Provide:";
      "1. A clear and concise answer";
      "2. Supporting evidence (quote relevant document lines)";
      "3. Confidence score (0-100%)";
      "4. Explanation of reasoning";
      EmptyString;
      "Format your response as JSON with these fields:";
      "{";
      "  " ++ quoted "answer" ++ ": " ++ quoted "your answer here" ++ ",";
      "  " ++ quoted "evidence" ++ ": [" ++ quoted "quote 1" ++ ", "
           ++ quoted "quote 2" ++ "],";
      "  " ++ quoted "confidence_score" ++ ": 85,";
      "  " ++ quoted "reasoning" ++ ": " ++ quoted "explanation here";
      "}" ].

(** The user message: the context, then the question. *)
Definition user_message (context question : string) : string :=
  "Context from document:" ++ newline ++ context ++ newline ++ newline
    ++ "Question: " ++ question.

(** The record built in the [catch] of [JSON.parse]. *)
Definition fallback_result (aiResponse : string) (relevant : list ScoredChunk)
  : JsValue :=
  JObject
    [ ("answer", JString aiResponse);
      ("evidence",
        JArray (map (fun c => JString (Js.substring (s_text c) 0 200 ++ "..."))
                    relevant));
      ("confidence_score", JNumber 75 0);
      ("reasoning", JString "Analysis based on document context") ].

(** The request of the one call to the gateway: the [Authorization] header,
    the model, and the two messages. *)
Definition gateway_request (env : Env) (context question : string)
  : GatewayRequest :=
  {| bearer := "Bearer " ++ LOVABLE_API_KEY env;
     model := "google/gemini-2.5-flash";
     system_content := systemPrompt;
     user_content := user_message context question |}.

Section Handler.
Variable toLowerCase : string -> string.
Variable JSON_parse : string -> option JsValue.

(** [try { result = JSON.parse(aiResponse) } catch (e) { result = ... }] *)
Definition parse_or_fallback (aiResponse : string) (relevant : list ScoredChunk)
  : JsValue :=
  match JSON_parse aiResponse with
  | Some v => v
  | None => fallback_result aiResponse relevant
  end.

(** The body of the [try] block; it returns the [result] that is sent back. *)
Definition analyze (env : Env) (req : Request) : M JsValue :=
  authHeader <-
    match authorization req with
    | Some h => ret h
    | None => throw "Cannot read properties of null (reading 'replace')"
    end ;;
  let token := Js.replace authHeader "Bearer " EmptyString in
  user <-
    match auth_getUser env token with
    | Some u => ret u
    | None => throw "Unauthorized"
    end ;;
  payload <-
    match json req with
    | Returned b => ret b
    | Thrown e => throw e
    end ;;
  log [Txt "Analyzing document:"; Txt (documentId payload);
       Txt "Question:"; Txt (question payload)] ;;;
  document <-
    match documents_single env (documentId payload) with
    | Some d => ret d
    | None => throw "Document not found"
    end ;;
  let relevant := relevantChunks toLowerCase (chunks document) (question payload) in
  let context := context_of relevant in
  response <-
    fetch env (gateway_request env context (question payload)) ;;
  aiResponse <-
    match response with
    | FetchRejects e => throw e
    | NotOk st errorText =>
        log_error [Txt "AI gateway error:"; Num st; Txt errorText] ;;;
        throw "AI analysis failed"
    | OkUnreadable e => throw e
    | OkContent content => ret content
    end ;;
  let result := parse_or_fallback aiResponse relevant in
  answer_ <- get result "answer" ;;
  evidence_ <- get result "evidence" ;;
  confidence_ <- get result "confidence_score" ;;
  reasoning_ <- get result "reasoning" ;;
  insert env {| document_id := documentId payload;
                row_user_id := user_id user;
                row_question := question payload;
                answer := answer_;
                evidence := evidence_;
                confidence_score := confidence_;
                reasoning := reasoning_ |} ;;;
  log [Txt "Analysis complete"] ;;;
  ret result.

(** The function given to [serve]: the preflight answer, then the [try]
    block and its [catch]. *)
Definition handler (env : Env) (req : Request) (w : World) : Response * World :=
  if String.eqb (method req) "OPTIONS" then
    ({| status := 200; body := None |}, w)
  else
    match analyze env req w with
    | (Returned result, w') => ({| status := 200; body := Some result |}, w')
    | (Thrown message, w') =>
        let (_, w'') := log_error [Txt "Error analyzing document:"; Err message] w' in
        ({| status := 500; body := Some (JObject [("error", JString message)]) |},
         w'')
    end.

End Handler.

(* ================================================================= *)
(** ** The question form (the [QueryInterface] component) *)

Module QueryInterface.

(** The component state: the three [useState] cells; the [null] of
    [result] is [None]. *)
Record State := {
  question : string;
  isLoading : bool;
  result : option JsValue
}.

(** What [supabase.functions.invoke] resolves to: [data], or an [error]
    (with whether it is an [Error] instance, and its message). *)
Inductive InvokeOutcome :=
| InvokeData (data : JsValue)
| InvokeError (instanceofError : bool) (message : string).

Inductive Effect :=
| preventDefault
| invoke (functionName documentId question : string)
| console_error_query
| toast (title description variant : string).

(** A string is falsy exactly when it is empty. *)
Definition falsy (s : string) : bool :=
  match s with
  | EmptyString => true
  | String _ _ => false
  end.

(** [handleSubmit]: the state once the handler has run to its end, and the
    effects in the order they happen. *)
Definition handleSubmit (documentId : string)
  (functions_invoke : string -> string -> string -> InvokeOutcome)
  (st : State) : State * list Effect :=
  if falsy (Js.trim (question st)) then (st, [preventDefault])
  else
    let call := invoke "analyze-document" documentId (question st) in
    match functions_invoke "analyze-document" documentId (question st) with
    | InvokeData data =>
        ({| question := EmptyString; isLoading := false;
            result := match data with
                      | JNull => None
                      | _ => Some data
                      end |},
         [preventDefault; call])
    | InvokeError isError message =>
        ({| question := question st; isLoading := false; result := None |},
         [preventDefault; call; console_error_query;
          toast "Error"
                (if isError then message else "Failed to analyze document")
                "destructive"])
    end.

(** The [disabled] attribute of the submit button. *)
Definition submit_disabled (st : State) : bool :=
  isLoading st || falsy (Js.trim (question st)).

(** Whether a list of effects holds a call of the analyze function. *)
Definition invokes (effects : list Effect) : bool :=
  existsb (fun e => match e with invoke _ _ _ => true | _ => false end) effects.

End QueryInterface.

(* ================================================================= *)
(** ** The Chunker *)

(** The Chunker as the specification words it, to be compared with the
    loop of the [process-document] function ([ProcessDocument.chunk_loop]):
    the text is split left to right into pieces of the configured size, the
    last piece holding the remainder, each piece tagged with its zero-based
    position, and the empty text giving no piece.  The first argument bounds
    the number of pieces. *)
Fixpoint chunks_from (bound : nat) (size : nat) (documentText : string)
  (position : Z) : list Chunk :=
  match bound with
  | O => []
  | S bound' =>
      match documentText with
      | EmptyString => []
      | String _ _ =>
          {| text := Js.take size documentText; index := position |}
            :: chunks_from bound' size (Js.drop size documentText) (position + 1)
      end
  end.

(** The Chunker of the specification on a text and a chunk size; a text of
    [n] characters has at most [n] pieces. *)
Definition chunker (size : nat) (documentText : string) : list Chunk :=
  chunks_from (String.length documentText) size documentText 0.

(** The texts of a chunk sequence put end to end, in sequence order. *)
Definition reassemble (cs : list Chunk) : string :=
  fold_right (fun c acc => (text c ++ acc)%string) EmptyString cs.

(* ================================================================= *)
(** ** A concrete deployment, for runs on concrete inputs *)

Module Example.

(** The text "Section 1: Knee surgery is covered under plan B. Section 2:
    Dental is excluded." in chunks of 40 characters. *)
Definition chunk0 : Chunk :=
  {| text := "Section 1: Knee surgery is covered under"; index := 0 |}.
Definition chunk1 : Chunk :=
  {| text := " plan B. Section 2: Dental is excluded."; index := 1 |}.

Definition document : Document :=
  {| doc_id := "doc-1"; chunks := [chunk0; chunk1] |}.

Definition env (reply : FetchOutcome) (insert_error : option string) : Env :=
  {| LOVABLE_API_KEY := "key";
     auth_getUser :=
       fun token => if String.eqb token "token-1"
                    then Some {| user_id := "user-1" |} else None;
     documents_single :=
       fun id => if String.eqb id "doc-1" then Some document else None;
     fetch_gateway := fun _ => reply;
     queries_insert_error := fun _ => insert_error |}.

Definition request (q : string) : Request :=
  {| method := "POST";
     authorization := Some "Bearer token-1";
     json := Returned {| documentId := "doc-1"; question := q |} |}.

Definition world0 : World := {| queries := []; console := []; sent := [] |}.

Definition run (reply : FetchOutcome) (insert_error : option string) (q : string)
  : Response * World :=
  handler toLowerCase_latin1 JSON_parse_model (env reply insert_error) (request q) world0.

End Example.

(* ================================================================= *)
(** ** Vocabulary of the properties *)

(** Descending by score. *)
Definition score_desc (a b : ScoredChunk) : Prop := score b <= score a.

Definition has_score (k : Z) (c : ScoredChunk) : bool := score c =? k.

(** What the language asks of [sort] with this comparator: the result is a
    rearrangement, in descending order of score, that keeps the relative
    order of chunks of equal score. *)
Definition stable_sorted (l l' : list ScoredChunk) : Prop :=
  Permutation l l'
  /\ StronglySorted score_desc l'
  /\ forall k, filter (has_score k) l' = filter (has_score k) l.

Definition add_console (e : ConsoleEntry) (w : World) : World :=
  {| queries := queries w; console := (console w ++ [e])%list; sent := sent w |}.

Definition add_sent (g : GatewayRequest) (w : World) : World :=
  {| queries := queries w; console := console w; sent := (sent w ++ [g])%list |}.

Definition add_query (row : QueryRow) (w : World) : World :=
  {| queries := (queries w ++ [row])%list; console := console w; sent := sent w |}.

(** The world after the insert: the row is there unless the storage
    reported an error. *)
Definition stored (env : Env) (row : QueryRow) (w : World) : World :=
  match queries_insert_error env row with
  | Some _ => w
  | None => add_query row w
  end.

Definition field (v : JsValue) (name : string) : option JsValue :=
  match v with
  | JObject fs =>
      match find (fun kv => String.eqb (fst kv) name) fs with
      | Some kv => Some (snd kv)
      | None => None
      end
  | _ => None
  end.

Definition row_of (user : User) (payload : RequestBody) (result : JsValue)
  : QueryRow :=
  {| document_id := documentId payload;
     row_user_id := user_id user;
     row_question := question payload;
     answer := field result "answer";
     evidence := field result "evidence";
     confidence_score := field result "confidence_score";
     reasoning := field result "reasoning" |}.

Definition error_response (message : string) : Response :=
  {| status := 500; body := Some (JObject [("error", JString message)]) |}.

Definition ok_response (result : JsValue) : Response :=
  {| status := 200; body := Some result |}.

(** The [catch] block. *)
Definition failed (message : string) (w : World) : Response * World :=
  (error_response message,
   add_console (console_error [Txt "Error analyzing document:"; Err message]) w).

(** The request is not a preflight, carries a token that the
    authentication service resolves to [user], has a body [payload], and
    names a stored [document]: the run gets as far as the ranking. *)
Definition reaches_gateway (env : Env) (req : Request)
  (user : User) (payload : RequestBody) (document : Document) : Prop :=
  method req <> "OPTIONS"
  /\ exists h,
      authorization req = Some h
      /\ auth_getUser env (Js.replace h "Bearer " EmptyString) = Some user
      /\ json req = Returned payload
      /\ documents_single env (documentId payload) = Some document.

(** The message of the error a gateway outcome ends the run with. *)
Definition gateway_failure (o : FetchOutcome) : option string :=
  match o with
  | FetchRejects e => Some e
  | NotOk _ _ => Some "AI analysis failed"
  | OkUnreadable e => Some e
  | OkContent _ => None
  end.

(** The evidence as the specification words it: the texts of the ranked
    chunks, each cut to a preview of at most [bound] characters. *)
Definition truncated_evidence (bound : nat) (relevant : list ScoredChunk) : JsValue :=
  JArray (map (fun c => JString (Js.take bound (s_text c))) relevant).

(** The evidence as the code builds it: the first 200 characters of each
    text, followed by three full stops. *)
Definition preview (c : ScoredChunk) : string :=
  (Js.take 200 (s_text c) ++ "...")%string.

(** The value of a number written [mantissa * 10 ^ exponent] when it is an
    integer. *)
Definition integer_value (mantissa exponent : Z) : option Z :=
  if 0 <=? exponent then Some (mantissa * 10 ^ exponent)
  else
    let d := 10 ^ (- exponent) in
    if mantissa mod d =? 0 then Some (mantissa / d) else None.

Definition is_string (v : option JsValue) : bool :=
  match v with
  | Some (JString _) => true
  | _ => false
  end.

(** The Structured shape as the specification words it: an object with
    fields [answer] (a string), [evidence] (a sequence of strings),
    [confidence_score] (an integer from 0 to 100) and [reasoning] (a
    string). *)
Definition structured_shape (v : JsValue) : bool :=
  match v with
  | JObject _ =>
      is_string (field v "answer")
      && match field v "evidence" with
         | Some (JArray es) => forallb (fun e => is_string (Some e)) es
         | _ => false
         end
      && match field v "confidence_score" with
         | Some (JNumber m e) =>
             match integer_value m e with
             | Some n => (0 <=? n) && (n <=? 100)
             | None => false
             end
         | _ => false
         end
      && is_string (field v "reasoning")
  | _ => false
  end.

(** A reply whose content is the JSON text of an object with the single
    field [answer], a number. *)
Definition misshapen_reply : string := "{" ++ quoted "answer" ++ ": 5}".

(** A reply of the Structured shape. *)
Definition structured_reply : string :=
  "{" ++ quoted "answer" ++ ": " ++ quoted "Yes" ++ ", "
      ++ quoted "evidence" ++ ": [" ++ quoted "Knee surgery is covered" ++ "], "
      ++ quoted "confidence_score" ++ ": 90, "
      ++ quoted "reasoning" ++ ": " ++ quoted "Stated in section 1" ++ "}".

(** The same deployment with another behaviour of the [queries] storage. *)
Definition with_insert_error (env : Env) (f : QueryRow -> option string) : Env :=
  {| LOVABLE_API_KEY := LOVABLE_API_KEY env;
     auth_getUser := auth_getUser env;
     documents_single := documents_single env;
     fetch_gateway := fetch_gateway env;
     queries_insert_error := f |}.

(** What the caller and the operator get to see of a run: the response and
    the console. *)
Definition observable (run : Response * World) : Response * list ConsoleEntry :=
  (fst run, console (snd run)).

(** The failure of the insert is reported, as the specification words it:
    what the caller and the operator see of the failing run differs from what
    they see of the run whose insert succeeds. *)
Definition persistence_failure_reported (failing storing : Response * World) : Prop :=
  observable failing <> observable storing.

(** Every character of the string is white space (the empty string too). *)
Fixpoint blank (s : string) : bool :=
  match s with
  | EmptyString => true
  | String c s' => Js.isWhiteSpace c && blank s'
  end.

(* ================================================================= *)
(** ** The display of the confidence score ([QueryInterface]) *)

(** [getConfidenceColor], on an integer score. *)
Definition getConfidenceColor (score : Z) : string :=
  if 80 <=? score then "text-green-600"
  else if 60 <=? score then "text-yellow-600"
  else "text-red-600".

(** The union ["default" | "secondary" | "destructive"]. *)
Inductive BadgeVariant := variant_default | variant_secondary | variant_destructive.

(** [getConfidenceVariant], on an integer score. *)
Definition getConfidenceVariant (score : Z) : BadgeVariant :=
  if 80 <=? score then variant_default
  else if 60 <=? score then variant_secondary
  else variant_destructive.

(* ================================================================= *)
(** ** Ingestion: the [process-document] function

    The function is kept, in two revisions, after the SQL of the migration
    file; the later revision (lines 119 to 225) is the one modelled.  Its
    chunking loop is the same in both. *)

Module ProcessDocument.

(** The uploaded file: its name, its MIME type, its size, and its bytes as
    [new TextDecoder().decode] reads them. *)
Record File := {
  name : string;
  type : string;
  size : Z;
  fileContent : string
}.

(** [s.replace(/[...]/g, '')]: every character of the class is dropped. *)
Fixpoint remove (class : ascii -> bool) (s : string) : string :=
  match s with
  | EmptyString => EmptyString
  | String c s' => if class c then remove class s' else String c (remove class s')
  end.

(** The class [\u0000]. *)
Definition isNull (c : ascii) : bool := Nat.eqb (nat_of_ascii c) 0.

(** The class [[\x00-\x08\x0B\x0C\x0E-\x1F\x7F]]. *)
Definition isControl (c : ascii) : bool :=
  let n := nat_of_ascii c in
  Nat.leb n 8 || Nat.eqb n 11 || Nat.eqb n 12
  || (Nat.leb 14 n && Nat.leb n 31) || Nat.eqb n 127.

(** The cleaning of the text (lines 161 to 164). *)
Definition extract (content : string) : string :=
  Js.trim (remove isControl (remove isNull content)).

(** [!extractedText || extractedText.length < 10] *)
Definition too_short (extractedText : string) : bool :=
  QueryInterface.falsy extractedText || (Js.len extractedText <? 10).

Definition chunkSize : Z := 1000.

(** The [for] loop (lines 176 to 181), from the state [(i, chunks)]; the
    first argument bounds the number of iterations, [None] meaning that the
    bound was reached with the loop still running. *)
Fixpoint chunk_loop (bound : nat) (extractedText : string) (i : Z)
  (chunks : list Chunk) : option (list Chunk) :=
  if i <? Js.len extractedText then
    match bound with
    | O => None
    | S bound' =>
        chunk_loop bound' extractedText (i + chunkSize)
          (chunks ++ [ {| text := Js.substring extractedText i (i + chunkSize);
                          index := Z.of_nat (List.length chunks) |} ])%list
    end
  else Some chunks.

(** The loop from [i = 0] and the empty array; a text of [n] characters
    takes fewer than [n + 1] iterations. *)
Definition chunk_text (extractedText : string) : option (list Chunk) :=
  chunk_loop (String.length extractedText) extractedText 0 [].

Definition is_slash_or_dot (c : ascii) : bool :=
  Ascii.eqb c "/" || Ascii.eqb c ".".

(** The whole of [s] matches [[^/.]+]. *)
Fixpoint is_extension (s : string) : bool :=
  match s with
  | EmptyString => false
  | String c EmptyString => negb (is_slash_or_dot c)
  | String c s' => negb (is_slash_or_dot c) && is_extension s'
  end.

(** [file.name.replace(/\.[^/.]+$/, "")]: the leftmost dot that is followed,
    up to the end of the name, by one character or more other than a slash
    and a dot, is cut with what follows it. *)
Fixpoint strip_extension (fileName : string) : string :=
  match fileName with
  | EmptyString => EmptyString
  | String c s' =>
      if Ascii.eqb c "." && is_extension s' then EmptyString
      else String c (strip_extension s')
  end.

(** The object handed to [supabase.from("documents").insert]. *)
Record DocumentRow := {
  row_user : string;
  title : string;
  file_name : string;
  file_type : string;
  content : string;
  row_chunks : list Chunk;
  metadata_size : Z;
  metadata_processed_at : string
}.

(** How [insert(...).select().single()] ends: with the stored document, of
    which the function reads the id, or with an error (whether it is an
    [Error] instance, and its message). *)
Inductive InsertOutcome :=
| Inserted (id : string)
| InsertError (instanceofError : bool) (message : string).

Record Env := {
  auth_getUser : string -> option User;
  now_toISOString : string;
  documents_insert : DocumentRow -> InsertOutcome
}.

(** The request: its method, its [Authorization] header, and how
    [req.formData()] ends, with the entry [file] of the form when it has
    one. *)
Record Request := {
  method : string;
  authorization : option string;
  formData : Outcome (option File)
}.

(** What a run changes: the [documents] table and the console. *)
Record World := {
  documents : list DocumentRow;
  console : list ConsoleEntry
}.

Definition log (e : ConsoleEntry) (w : World) : World :=
  {| documents := documents w; console := (console w ++ [e])%list |}.

(** The [catch] block. *)
Definition failed (instanceofError : bool) (message : string) (w : World)
  : Response * World :=
  ({| status := 500;
      body := Some (JObject [("error",
                JString (if instanceofError then message else "Unknown error"))]) |},
   log (console_error [Txt "Error processing document:"; Err message]) w).

(** The decimal numeral of a length, as a template literal prints it. *)
Definition decimal (n : nat) : string := NilZero.string_of_uint (Nat.to_uint n).

(** The row built from the user, the file and the cleaned text. *)
Definition row_for (env : Env) (user : User) (file : File)
  (extractedText : string) (chunks : list Chunk) : DocumentRow :=
  {| row_user := user_id user;
     title := strip_extension (name file);
     file_name := name file;
     file_type := type file;
     content := extractedText;
     row_chunks := chunks;
     metadata_size := size file;
     metadata_processed_at := now_toISOString env |}.

(** The function given to [serve].  The loop always ends within its bound
    (see [chunk_text_is_chunker]), so the branch for [None] is never taken. *)
Definition handler (env : Env) (req : Request) (w : World) : Response * World :=
  if String.eqb (method req) "OPTIONS" then
    ({| status := 200; body := None |}, w)
  else
    match authorization req with
    | None => failed true "Cannot read properties of null (reading 'replace')" w
    | Some authHeader =>
        match auth_getUser env (Js.replace authHeader "Bearer " EmptyString) with
        | None => failed true "Unauthorized" w
        | Some user =>
            match formData req with
            | Thrown e => failed true e w
            | Returned None => failed true "No file provided" w
            | Returned (Some file) =>
                let w1 := log (console_log [Txt "Processing file:"; Txt (name file)]) w in
                let extractedText := extract (fileContent file) in
                if too_short extractedText then
                  failed true
                    "Could not extract meaningful text from document. Please ensure the file contains readable text."
                    w1
                else
                  let w2 :=
                    log (console_log
                           [Txt ("Extracted " ++ decimal (String.length extractedText)
                                   ++ " characters of text")]) w1 in
                  match chunk_text extractedText with
                  | None => failed true EmptyString w2
                  | Some chunks =>
                      let row := row_for env user file extractedText chunks in
                      match documents_insert env row with
                      | InsertError isError message =>
                          failed isError message
                            (log (console_error [Txt "Database error:"; Err message]) w2)
                      | Inserted id =>
                          ({| status := 200;
                              body := Some (JObject [("success", JBool true);
                                                     ("documentId", JString id)]) |},
                           log (console_log [Txt "Document processed successfully:";
                                             Txt id])
                               {| documents := (documents w2 ++ [row])%list;
                                  console := console w2 |})
                      end
                  end
            end
        end
    end.

End ProcessDocument.

(* ================================================================= *)
(** ** The upload card (the [DocumentUpload] component) *)

Module DocumentUpload.

Record State := { isUploading : bool; isDragging : bool }.

(** What [supabase.functions.invoke("process-document", ...)] resolves to:
    no error, or an error (whether it is an [Error] instance, and its
    message). *)
Inductive InvokeOutcome :=
| InvokeOk
| InvokeError (instanceofError : bool) (message : string).

Inductive Effect :=
| preventDefault
| invoke (functionName : string) (file : ProcessDocument.File)
| toast (title description : string) (variant : option string)
| onUploadComplete
| console_error_upload.

Definition pdf : string := "application/pdf".
Definition docx : string :=
  "application/vnd.openxmlformats-officedocument.wordprocessingml.document".

(** [processDocument]: the state once the function has run to its end, and
    its effects in order.  [user] is what [supabase.auth.getUser()] gives. *)
Definition processDocument (user : option User)
  (functions_invoke : ProcessDocument.File -> InvokeOutcome)
  (file : ProcessDocument.File) (st : State) : State * list Effect :=
  let done := {| isUploading := false; isDragging := isDragging st |} in
  match user with
  | None =>
      (done, [console_error_upload; toast "Error" "Not authenticated" (Some "destructive")])
  | Some _ =>
      match functions_invoke file with
      | InvokeOk =>
          (done, [invoke "process-document" file;
                  toast "Success" "Document processed successfully" None;
                  onUploadComplete])
      | InvokeError isError message =>
          (done, [invoke "process-document" file; console_error_upload;
                  toast "Error"
                        (if isError then message else "Failed to process document")
                        (Some "destructive")])
      end
  end.

(** The test both handlers make on the type of the file. *)
Definition accepted (file : ProcessDocument.File) : bool :=
  String.eqb (ProcessDocument.type file) pdf
  || String.eqb (ProcessDocument.type file) docx.

Definition invalid_type : Effect :=
  toast "Invalid file type" "Please upload a PDF or DOCX file" (Some "destructive").

(** [handleFileSelect], on [e.target.files?.[0]]. *)
Definition handleFileSelect (user : option User)
  (functions_invoke : ProcessDocument.File -> InvokeOutcome)
  (file : option ProcessDocument.File) (st : State) : State * list Effect :=
  match file with
  | None => (st, [])
  | Some f =>
      if accepted f then processDocument user functions_invoke f st
      else (st, [invalid_type])
  end.


Definition invokes (effects : list Effect) : bool :=
  existsb (fun e => match e with invoke _ _ => true | _ => false end) effects.

End DocumentUpload.

(* ================================================================= *)
(** ** The dashboard (the page that holds the list, the upload card and the
       question form) *)

Module Dashboard.

(** A row of the list: [id, title, file_name, created_at]. *)
Record Doc := {
  id : string;
  title : string;
  file_name : string;
  created_at : string
}.

(** The four [useState] cells. *)
Record State := {
  documents : list Doc;
  selectedDoc : option string;
  isLoading : bool;
  showUpload : bool
}.

(** The calls a handler makes, in order: state setters and toasts.  A
    handler reads the state of the render it was created in; its setter
    calls take effect afterwards. *)
Inductive Effect :=
| setDocuments (docs : list Doc)
| setSelectedDoc (sel : option string)
| setIsLoading (b : bool)
| setShowUpload (b : bool)
| toast (title description : string) (variant : option string)
| console_error_dashboard.

Definition apply (st : State) (e : Effect) : State :=
  match e with
  | setDocuments docs =>
      {| documents := docs; selectedDoc := selectedDoc st;
         isLoading := isLoading st; showUpload := showUpload st |}
  | setSelectedDoc sel =>
      {| documents := documents st; selectedDoc := sel;
         isLoading := isLoading st; showUpload := showUpload st |}
  | setIsLoading b =>
      {| documents := documents st; selectedDoc := selectedDoc st;
         isLoading := b; showUpload := showUpload st |}
  | setShowUpload b =>
      {| documents := documents st; selectedDoc := selectedDoc st;
         isLoading := isLoading st; showUpload := b |}
  | toast _ _ _ => st
  | console_error_dashboard => st
  end.

(** The state once all the calls have taken effect. *)
Definition after (st : State) (effects : list Effect) : State :=
  fold_left apply effects st.

(** A selection is truthy when it is a non-empty string. *)
Definition truthy (sel : option string) : bool :=
  match sel with
  | Some (String _ _) => true
  | _ => false
  end.

(** What the [select] of [loadDocuments] resolves to: an error, or [data]
    ([None] for [null]). *)
Inductive SelectOutcome :=
| SelectError
| SelectData (data : option (list Doc)).

(** [loadDocuments], in a render whose state is [st]. *)
Definition loadDocuments (st : State) (outcome : SelectOutcome) : list Effect :=
  match outcome with
  | SelectError => [console_error_dashboard; setIsLoading false]
  | SelectData data =>
      let docs := match data with Some l => l | None => [] end in
      (setDocuments docs
         :: match data with
            | Some (first :: _) =>
                if truthy (selectedDoc st) then []
                else [setSelectedDoc (Some (id first))]
            | _ => []
            end
         ++ [setIsLoading false])%list
  end.

(** [selectedDoc === id] *)
Definition is_selected (st : State) (doc : string) : bool :=
  match selectedDoc st with
  | Some s => String.eqb s doc
  | None => false
  end.

(** [handleDelete(id)], in a render whose state is [st]: [deleted] tells
    whether the [delete] came back without error, [reload] what the
    [select] of the [loadDocuments] that follows resolves to. *)
Definition handleDelete (st : State) (doc : string) (deleted : bool)
  (reload : SelectOutcome) : list Effect :=
  if deleted then
    (toast "Document deleted" "The document has been removed" None
       :: (if is_selected st doc then [setSelectedDoc None] else [])
       ++ loadDocuments st reload)%list
  else [toast "Error" "Failed to delete document" (Some "destructive")].

(** The [onUploadComplete] given to the upload card, as created in a render
    whose state is [st] (the upload card keeps the one of the render in which
    the file was chosen): [loadDocuments()] is started, the card is hidden,
    and the calls of [loadDocuments] follow once its [select] has
    resolved. *)
Definition onUploadComplete (st : State) (reload : SelectOutcome) : list Effect :=
  setShowUpload false :: loadDocuments st reload.

(** The main content of the page. *)
Inductive Main :=
| UploadCard
| QuestionForm (documentId : string)
| NoDocumentSelected.

Definition main (st : State) : Main :=
  if showUpload st then UploadCard
  else match selectedDoc st with
       | Some (String c s) => QuestionForm (String c s)
       | _ => NoDocumentSelected
       end.

End Dashboard.

(** Every character of the string passes the test. *)
Fixpoint string_forall (p : ascii -> bool) (s : string) : bool :=
  match s with
  | EmptyString => true
  | String c s' => p c && string_forall p s'
  end.

(** A concrete deployment of the ingestion. *)
Module IngestExample.

Definition env : ProcessDocument.Env :=
  {| ProcessDocument.auth_getUser :=
       fun token => if String.eqb token "token-1"
                    then Some {| user_id := "user-1" |} else None;
     ProcessDocument.now_toISOString := "2025-10-19T13:05:00.000Z";
     ProcessDocument.documents_insert := fun _ => ProcessDocument.Inserted "doc-1" |}.

Definition file (fileName content : string) : ProcessDocument.File :=
  {| ProcessDocument.name := fileName;
     ProcessDocument.type := "application/pdf";
     ProcessDocument.size := Js.len content;
     ProcessDocument.fileContent := content |}.

Definition request (fileName content : string) : ProcessDocument.Request :=
  {| ProcessDocument.method := "POST";
     ProcessDocument.authorization := Some "Bearer token-1";
     ProcessDocument.formData := Returned (Some (file fileName content)) |}.

Definition world0 : ProcessDocument.World :=
  {| ProcessDocument.documents := []; ProcessDocument.console := [] |}.

End IngestExample.

(* ================================================================= *)
(** * Properties *)

(** ** Strings *)

Lemma append_empty_r (s : string) : (s ++ EmptyString)%string = s.
Proof. induction s as [|c s IH]; simpl; [reflexivity | now rewrite IH]. Qed.

Lemma append_assoc (a b c : string) :
  ((a ++ b) ++ c)%string = (a ++ (b ++ c))%string.
Proof. induction a as [|x a IH]; simpl; [reflexivity | now rewrite IH]. Qed.

Lemma length_append (a b : string) :
  String.length (a ++ b) = (String.length a + String.length b)%nat.
Proof. induction a as [|x a IH]; simpl; [reflexivity | now rewrite IH]. Qed.

Lemma startsWith_spec (s p : string) :
  Js.startsWith s p = true <-> exists t, s = (p ++ t)%string.
Proof.
  revert s. induction p as [|a p IH]; intros s; simpl.
  - split; [intros _; now exists s | reflexivity].
  - destruct s as [|b s]; simpl.
    + split; [discriminate | intros [t H]; discriminate].
    + rewrite andb_true_iff, IH. split.
      * intros [Hab [t ->]]. apply Ascii.eqb_eq in Hab. subst b. now exists t.
      * intros [t H]. injection H as -> ->. split; [apply Ascii.eqb_refl | now exists t].
Qed.

Lemma includes_spec (s sub : string) :
  Js.includes s sub = true <-> Contains s sub.
Proof.
  unfold Contains. induction s as [|c s IH]; simpl.
  - rewrite orb_false_r, startsWith_spec. split.
    + intros [t H]. exists EmptyString, t. exact H.
    + intros [pre [post H]]. destruct pre; [now exists post | discriminate].
  - rewrite orb_true_iff, IH. split.
    + intros [H | [pre [post ->]]].
      * apply startsWith_spec in H as [t H]. exists EmptyString, t. exact H.
      * exists (String c pre), post. reflexivity.
    + intros [pre [post H]]. destruct pre as [|x pre].
      * left. apply startsWith_spec. now exists post.
      * right. simpl in H. injection H as _ ->. now exists pre, post.
Qed.

Lemma take_drop (n : nat) (s : string) : (Js.take n s ++ Js.drop n s)%string = s.
Proof.
  revert s. induction n as [|n IH]; intros [|c s]; simpl; try reflexivity.
  now rewrite IH.
Qed.

Lemma length_take (n : nat) (s : string) :
  String.length (Js.take n s) = Nat.min n (String.length s).
Proof.
  revert s. induction n as [|n IH]; intros [|c s]; simpl; try reflexivity.
  now rewrite IH.
Qed.

Lemma length_drop (n : nat) (s : string) :
  String.length (Js.drop n s) = (String.length s - n)%nat.
Proof.
  revert s. induction n as [|n IH]; intros [|c s]; simpl; try reflexivity.
  apply IH.
Qed.

Lemma length_substring (s : string) (a b : Z) :
  (String.length (Js.substring s a b) <= String.length s)%nat.
Proof.
  unfold Js.substring. rewrite length_take, length_drop. lia.
Qed.

Lemma take_all (n : nat) (s : string) :
  (String.length s <= n)%nat -> Js.take n s = s.
Proof.
  revert n. induction s as [|c s IH]; intros [|n] H; simpl in *;
    try reflexivity; try lia.
  f_equal. apply IH. lia.
Qed.

(** A substring from position 0 is the text cut after [n] characters. *)
Lemma substring_from_0 (s : string) (n : nat) :
  Js.substring s 0 (Z.of_nat n) = Js.take n s.
Proof.
  unfold Js.substring, Js.len.
  set (k := String.length s).
  replace (Z.min (Z.max 0 0) (Z.of_nat k)) with 0 by lia.
  replace (Z.min 0 (Z.min (Z.max (Z.of_nat n) 0) (Z.of_nat k))) with 0 by lia.
  simpl Js.drop.
  replace (Z.to_nat (Z.max 0 (Z.min (Z.max (Z.of_nat n) 0) (Z.of_nat k)) - 0))
    with (Nat.min n k) by lia.
  destruct (Nat.le_gt_cases n k) as [H | H].
  - now rewrite Nat.min_l.
  - rewrite Nat.min_r by lia. unfold k. rewrite !take_all; [reflexivity | lia | lia].
Qed.

Lemma length_substring_from_0 (s : string) (n : nat) :
  (String.length (Js.substring s 0 (Z.of_nat n)) <= n)%nat.
Proof. rewrite substring_from_0, length_take. lia. Qed.

(** [join] is the concatenation with the separator between the elements. *)
Lemma join_concat (arr : list string) (sep : string) :
  Js.join arr sep = String.concat sep arr.
Proof.
  unfold Js.join.
  assert (G : forall l k R,
             snd (fold_left
                    (fun (st : nat * string) (e : string) =>
                       let (k, R) := st in
                       (S k, ((if Nat.eqb k 0 then R else R ++ sep) ++ e)%string))
                    l (S k, R))
             = (R ++ match l with
                     | [] => EmptyString
                     | _ :: _ => sep ++ String.concat sep l
                     end)%string).
  { induction l as [|e l IH]; intros k R; simpl.
    - now rewrite append_empty_r.
    - rewrite IH. destruct l as [|e' l].
      + now rewrite append_empty_r, append_assoc.
      + now rewrite !append_assoc. }
  destruct arr as [|e l]; simpl; [reflexivity|].
  rewrite G. destruct l; [apply append_empty_r | reflexivity].
Qed.

(** ** The stable sort *)

Section SortFacts.
Context {A : Type} (cmp : A -> A -> Z).

Lemma insert_perm (x : A) (l : list A) : Permutation (Js.insert cmp x l) (x :: l).
Proof.
  induction l as [|y l IH]; simpl; [reflexivity|].
  destruct (cmp x y <=? 0); [reflexivity|].
  rewrite IH. apply perm_swap.
Qed.

Lemma sort_perm (l : list A) : Permutation (Js.sort cmp l) l.
Proof.
  induction l as [|x l IH]; simpl; [reflexivity|].
  rewrite insert_perm. now constructor.
Qed.

(** An array already in order comes back from [sort] as it is. *)
Lemma sort_sorted_id (l : list A) :
  StronglySorted (fun a b => cmp a b <= 0) l -> Js.sort cmp l = l.
Proof.
  induction 1 as [|x l Hs IH Hx]; simpl; [reflexivity|].
  rewrite IH. destruct l as [|y l]; simpl; [reflexivity|].
  inversion Hx as [|? ? Hxy _]; subst.
  now rewrite (proj2 (Z.leb_le _ _) Hxy).
Qed.

End SortFacts.

Lemma insert_score_desc (x : ScoredChunk) (l : list ScoredChunk) :
  StronglySorted score_desc l ->
  StronglySorted score_desc (Js.insert by_score_desc x l).
Proof.
  induction 1 as [|y l Hs IH Hy]; simpl.
  - repeat constructor.
  - unfold by_score_desc at 1. destruct (Z.leb_spec (score y - score x) 0) as [H | H].
    + constructor; [now constructor|].
      constructor; [unfold score_desc; lia|].
      eapply Forall_impl; [|exact Hy]. unfold score_desc. intros; lia.
    + constructor; [exact IH|].
      eapply Permutation_Forall; [symmetry; apply insert_perm|].
      constructor; [unfold score_desc; lia | exact Hy].
Qed.

Lemma sort_score_desc (l : list ScoredChunk) :
  StronglySorted score_desc (Js.sort by_score_desc l).
Proof.
  induction l as [|x l IH]; simpl; [constructor | now apply insert_score_desc].
Qed.

(** Stability: the chunks of one score keep their relative order. *)
Lemma insert_stable (k : Z) (x : ScoredChunk) (l : list ScoredChunk) :
  filter (has_score k) (Js.insert by_score_desc x l) = filter (has_score k) (x :: l).
Proof.
  induction l as [|y l IH]; [reflexivity|].
  simpl Js.insert. unfold by_score_desc at 1.
  destruct (Z.leb_spec (score y - score x) 0) as [H | H]; [reflexivity|].
  simpl filter in *. rewrite IH. unfold has_score.
  destruct (Z.eqb_spec (score x) k), (Z.eqb_spec (score y) k); try reflexivity. lia.
Qed.

Lemma sort_stable (k : Z) (l : list ScoredChunk) :
  filter (has_score k) (Js.sort by_score_desc l) = filter (has_score k) l.
Proof.
  induction l as [|x l IH]; [reflexivity|].
  simpl Js.sort. rewrite insert_stable. simpl. now rewrite IH.
Qed.

Lemma sort_stable_sorted (l : list ScoredChunk) :
  stable_sorted l (Js.sort by_score_desc l).
Proof.
  split; [symmetry; apply sort_perm|].
  split; [apply sort_score_desc | intros k; apply sort_stable].
Qed.

Lemma filter_has_score_In (k : Z) (x : ScoredChunk) (l : list ScoredChunk) :
  In x (filter (has_score k) l) -> In x l /\ score x = k.
Proof.
  rewrite filter_In. unfold has_score. intros [H E]. now apply Z.eqb_eq in E.
Qed.

(** Two descending lists with the same chunks of every score, in the same
    order, are the same list. *)
Lemma sorted_by_classes_unique (l1 l2 : list ScoredChunk) :
  StronglySorted score_desc l1 -> StronglySorted score_desc l2 ->
  (forall k, filter (has_score k) l1 = filter (has_score k) l2) ->
  l1 = l2.
Proof.
  intros S1. revert l2. induction S1 as [|x l1 S1 IH Hx]; intros l2 S2 E.
  - destruct l2 as [|y l2]; [reflexivity|].
    specialize (E (score y)). simpl in E. unfold has_score in E at 1.
    rewrite Z.eqb_refl in E. discriminate.
  - destruct l2 as [|y l2].
    { specialize (E (score x)). simpl in E. unfold has_score in E at 1.
      rewrite Z.eqb_refl in E. discriminate. }
    inversion S2 as [|? ? S2' Hy]; subst.
    assert (x = y) as <-.
    { pose proof (E (score x)) as Ex. pose proof (E (score y)) as Ey.
      simpl in Ex, Ey.
      assert (Rx : has_score (score x) x = true) by apply Z.eqb_refl.
      assert (Ry : has_score (score y) y = true) by apply Z.eqb_refl.
      rewrite Rx in Ex. rewrite Ry in Ey.
      destruct (Z.eqb_spec (score y) (score x)) as [e | ne].
      - replace (has_score (score x) y) with true in Ex
          by (symmetry; now apply Z.eqb_eq).
        now injection Ex.
      - replace (has_score (score x) y) with false in Ex
          by (symmetry; now apply Z.eqb_neq).
        replace (has_score (score y) x) with false in Ey
          by (symmetry; apply Z.eqb_neq; congruence).
        assert (I1 : In x (filter (has_score (score x)) l2))
          by (rewrite <- Ex; now left).
        assert (I2 : In y (filter (has_score (score y)) l1))
          by (rewrite Ey; now left).
        apply filter_has_score_In in I1 as [I1 _].
        apply filter_has_score_In in I2 as [I2 _].
        rewrite Forall_forall in Hx, Hy.
        specialize (Hx _ I2). specialize (Hy _ I1). unfold score_desc in *. lia. }
    f_equal. apply IH; [exact S2'|].
    intros k. specialize (E k). simpl in E.
    destruct (has_score k x); [now injection E | exact E].
Qed.

Lemma stable_sorted_unique (l l1 l2 : list ScoredChunk) :
  stable_sorted l l1 -> stable_sorted l l2 -> l1 = l2.
Proof.
  intros (_ & S1 & E1) (_ & S2 & E2).
  apply sorted_by_classes_unique; try assumption.
  intros k. now rewrite E1, E2.
Qed.

(** ** The ranking *)

(** The positions of [l] that [firstn n (filter f l)] is read from: they
    ascend, and they are the first [n] positions that pass [f]. *)
Lemma firstn_filter_positions {A : Type} (f : A -> bool) (l : list A) (n : nat) :
  exists ps : list nat,
    StronglySorted lt ps
    /\ Forall2 (fun p x => nth_error l p = Some x /\ f x = true) ps
               (firstn n (filter f l))
    /\ (forall p x, nth_error l p = Some x -> f x = true ->
          In p ps \/ (List.length ps = n /\ Forall (fun p' => (p' < p)%nat) ps)).
Proof.
  revert n. induction l as [|x l IH]; intros n.
  - exists []. simpl. rewrite firstn_nil.
    split; [constructor|]. split; [constructor|].
    intros p y Hy. destruct p; discriminate.
  - destruct n as [|n].
    + exists []. split; [constructor|]. split; [constructor|].
      intros p y _ _. right. split; [reflexivity | constructor].
    + simpl filter. destruct (f x) eqn:Fx.
      * destruct (IH n) as (ps & Hs & Hf & Hc).
        exists (O :: map S ps). repeat split.
        -- constructor.
           ++ clear -Hs. induction Hs as [|p ps Hs IHs Hp]; simpl; constructor; auto.
              rewrite Forall_map. eapply Forall_impl; [|exact Hp]. simpl; intros; lia.
           ++ rewrite Forall_map. apply Forall_forall. intros; lia.
        -- simpl firstn. constructor; [now split|].
           clear -Hf. induction Hf; simpl; constructor; auto.
        -- intros [|p] y Hy Fy; [left; now left|].
           destruct (Hc p y Hy Fy) as [I | [L F]].
           ++ left. right. now apply in_map.
           ++ right. split; [simpl; now rewrite length_map, L|].
              constructor; [lia|]. rewrite Forall_map.
              eapply Forall_impl; [|exact F]. simpl; intros; lia.
      * destruct (IH (S n)) as (ps & Hs & Hf & Hc).
        exists (map S ps). repeat split.
        -- clear -Hs. induction Hs as [|p ps Hs IHs Hp]; simpl; constructor; auto.
           rewrite Forall_map. eapply Forall_impl; [|exact Hp]. simpl; intros; lia.
        -- clear -Hf. induction Hf; simpl; constructor; auto.
        -- intros [|p] y Hy Fy; [simpl in Hy; congruence|].
           destruct (Hc p y Hy Fy) as [I | [L F]].
           ++ left. now apply in_map.
           ++ right. split; [now rewrite length_map|].
              rewrite Forall_map. eapply Forall_impl; [|exact F]. simpl; intros; lia.
Qed.

Section RankingFacts.
Variable toLowerCase : string -> string.

Lemma matches_spec (question : string) (c : Chunk) :
  matches toLowerCase question c = true <-> Matches toLowerCase question c.
Proof. apply includes_spec. Qed.

Lemma scored_positive (question : string) (c : Chunk) :
  (0 <? score (with_score toLowerCase (toLowerCase question) c)) = matches toLowerCase question c.
Proof.
  unfold with_score, score_of, matches; simpl.
  now destruct (Js.includes _ _).
Qed.

Lemma candidates_score (chunks : list Chunk) (question : string) :
  Forall (fun c => score c = 1) (candidates toLowerCase chunks question).
Proof.
  apply Forall_forall. intros c H. apply filter_In in H as [H P].
  apply in_map_iff in H as [c0 [<- _]].
  unfold with_score, score_of in *; simpl in *.
  destruct (Js.includes _ _); [reflexivity | discriminate].
Qed.

Lemma candidates_in_order (chunks : list Chunk) (question : string) :
  StronglySorted (fun a b => by_score_desc a b <= 0) (candidates toLowerCase chunks question).
Proof.
  pose proof (candidates_score chunks question) as H.
  induction H as [|c l Hc Hl IH]; constructor; [exact IH|].
  eapply Forall_impl; [|exact Hl]. unfold by_score_desc. simpl. intros; lia.
Qed.

(** All candidates have score 1, so the sort leaves them as they are. *)
Lemma relevantChunks_firstn (chunks : list Chunk) (question : string) :
  relevantChunks toLowerCase chunks question = firstn 3 (candidates toLowerCase chunks question).
Proof.
  unfold relevantChunks, Js.slice. fold (candidates toLowerCase chunks question).
  now rewrite sort_sorted_id by apply candidates_in_order.
Qed.

Lemma unscored_with_score (ql : string) (c : Chunk) :
  unscored (with_score toLowerCase ql c) = c.
Proof. now destruct c. Qed.

Lemma unscored_candidates (chunks : list Chunk) (question : string) :
  map unscored (candidates toLowerCase chunks question) = filter (matches toLowerCase question) chunks.
Proof.
  unfold candidates. induction chunks as [|c l IH]; [reflexivity|].
  cbn [map filter]. rewrite scored_positive.
  destruct (matches toLowerCase question c); cbn [map].
  - now rewrite unscored_with_score, IH.
  - exact IH.
Qed.

Lemma unscored_relevantChunks (chunks : list Chunk) (question : string) :
  map unscored (relevantChunks toLowerCase chunks question)
  = firstn 3 (filter (matches toLowerCase question) chunks).
Proof.
  now rewrite relevantChunks_firstn, <- firstn_map, unscored_candidates.
Qed.

Lemma length_relevantChunks (chunks : list Chunk) (question : string) :
  (List.length (relevantChunks toLowerCase chunks question) <= 3)%nat.
Proof. rewrite relevantChunks_firstn. apply firstn_le_length. Qed.

(** No chunk matches: the ranking is empty. *)
Lemma relevantChunks_none (chunks : list Chunk) (question : string) :
  (forall c, In c chunks -> ~ Matches toLowerCase question c) ->
  relevantChunks toLowerCase chunks question = [].
Proof.
  intros H. rewrite relevantChunks_firstn.
  assert (E : candidates toLowerCase chunks question = []).
  { apply map_eq_nil with (f := unscored). rewrite unscored_candidates.
    induction chunks as [|c l IH]; [reflexivity|]. simpl.
    destruct (matches toLowerCase question c) eqn:M.
    - exfalso. apply (H c); [now left | now apply matches_spec].
    - apply IH. intros c' I. apply H. now right. }
  now rewrite E.
Qed.

End RankingFacts.

Lemma In_firstn {A : Type} (n : nat) (l : list A) (x : A) :
  In x (firstn n l) -> In x l.
Proof.
  revert l. induction n as [|n IH]; intros [|y l]; simpl; try tauto.
  intros [H | H]; [now left | right; now apply IH].
Qed.

Lemma StronglySorted_of_nat (ps : list nat) :
  StronglySorted lt ps -> StronglySorted Z.lt (map Z.of_nat ps).
Proof.
  induction 1 as [|p ps Hs IH Hp]; simpl; constructor; [exact IH|].
  rewrite Forall_map. eapply Forall_impl; [|exact Hp]. simpl; intros; lia.
Qed.

(** C1. The Relevance Ranker returns exactly the chunks whose lowercased
    text contains the lowercased question as a substring, at most 3 of them:
    the result is read from the chunk sequence at the first (up to three)
    matching positions, in ascending position; every chunk returned matches
    and has score 1; a chunk that does not match is not returned; the result
    is in descending order of score; and when each chunk carries its
    position as [index], the indices of the result ascend. *)
Theorem relevantChunks_ranking
  (toLowerCase : string -> string) (chunks : list Chunk) (question : string) :
  let r := relevantChunks toLowerCase chunks question in
  (exists ps : list nat,
      StronglySorted lt ps
      /\ Forall2 (fun p c => nth_error chunks p = Some (unscored c)
                             /\ Matches toLowerCase question (unscored c)
                             /\ score c = 1) ps r
      /\ (forall p c, nth_error chunks p = Some c ->
                      Matches toLowerCase question c ->
            In p ps \/ (List.length ps = 3%nat /\ Forall (fun p' => (p' < p)%nat) ps))
      /\ ((forall p c, nth_error chunks p = Some c -> index c = Z.of_nat p) ->
          map s_index r = map Z.of_nat ps /\ StronglySorted Z.lt (map s_index r)))
  /\ (forall c, In c chunks -> ~ Matches toLowerCase question c ->
                ~ In c (map unscored r))
  /\ (List.length r <= 3)%nat
  /\ StronglySorted score_desc r
  /\ map unscored r = firstn 3 (filter (matches toLowerCase question) chunks).
Proof.
  intros r. subst r.
  split; [|split; [|split; [|split]]].
  - rewrite relevantChunks_firstn. unfold candidates.
    set (ws := with_score toLowerCase (toLowerCase question)).
    destruct (firstn_filter_positions (fun chunk => 0 <? score chunk)
                (map ws chunks) 3) as (ps & Hs & Hf & Hc).
    assert (Hf' : Forall2 (fun p c => nth_error chunks p = Some (unscored c)
                             /\ Matches toLowerCase question (unscored c)
                             /\ score c = 1) ps
                    (firstn 3 (filter (fun chunk => 0 <? score chunk) (map ws chunks)))).
    { eapply Forall2_impl; [|exact Hf]. intros p c [Hn Hp]. simpl in *.
      rewrite nth_error_map in Hn. destruct (nth_error chunks p) as [c0|] eqn:E;
        [|discriminate].
      injection Hn as <-. unfold ws in *. rewrite unscored_with_score.
      rewrite scored_positive in Hp. split; [reflexivity|].
      split; [now apply matches_spec|].
      unfold with_score, score_of, matches in *; simpl. now rewrite Hp. }
    exists ps. split; [exact Hs|]. split; [exact Hf'|]. split.
    + intros p c Hn Hm. apply (Hc p (ws c)).
      * rewrite nth_error_map, Hn. reflexivity.
      * unfold ws. rewrite scored_positive. now apply matches_spec.
    + intros Hi.
      assert (E : map s_index
                    (firstn 3 (filter (fun chunk => 0 <? score chunk) (map ws chunks)))
                  = map Z.of_nat ps).
      { clear -Hf' Hi. induction Hf' as [|p c ps l [Hn _] _ IH]; [reflexivity|].
        simpl. rewrite IH. f_equal. apply Hi in Hn. exact Hn. }
      split; [exact E|]. rewrite E. now apply StronglySorted_of_nat.
  - intros c _ Hm Hin. rewrite unscored_relevantChunks in Hin.
    apply In_firstn in Hin. apply filter_In in Hin as [_ Hin].
    apply Hm. now apply matches_spec.
  - apply length_relevantChunks.
  - unfold relevantChunks, Js.slice. simpl skipn. simpl Nat.sub.
    set (l := Js.sort _ _). assert (S : StronglySorted score_desc l)
      by apply sort_score_desc.
    clearbody l. clear -S. generalize 3%nat as n.
    induction S as [|x l S IH Hx]; intros [|n]; simpl; try constructor.
    + apply IH.
    + apply Forall_forall. intros y Hy. apply In_firstn in Hy.
      rewrite Forall_forall in Hx. now apply Hx.
  - apply unscored_relevantChunks.
Qed.

(** C1 on the two chunks of the concrete document, both of which hold the
    question: they come back in document order. *)
Lemma relevantChunks_ranking_witness :
  map s_index (relevantChunks toLowerCase_latin1 [Example.chunk0; Example.chunk1] "SECTION")
  = [0; 1]
  /\ StronglySorted Z.lt
       (map s_index
          (relevantChunks toLowerCase_latin1 [Example.chunk0; Example.chunk1] "SECTION")).
Proof.
  split; [reflexivity|].
  destruct (relevantChunks_ranking toLowerCase_latin1
              [Example.chunk0; Example.chunk1] "SECTION")
    as ((ps & _ & _ & _ & H) & _).
  apply H. intros p c Hn.
  destruct p as [|[|p]]; simpl in Hn.
  - now injection Hn as <-.
  - now injection Hn as <-.
  - destruct p; discriminate.
Defined.

(** C5. The Context Assembler produces the texts of the ranked chunks in
    rank order with the paragraph delimiter between them: the empty
    sequence gives the empty string, one chunk gives its text, and a longer
    sequence gives the first text, the delimiter and the context of the
    rest.  It is a total function: no input makes it fail. *)
Theorem context_of_concatenation (ranked : list ScoredChunk) :
  context_of ranked = String.concat paragraph_break (map s_text ranked)
  /\ context_of [] = EmptyString
  /\ (forall c, context_of [c] = s_text c)
  /\ (forall c c' rest,
         context_of (c :: c' :: rest)
         = (s_text c ++ paragraph_break ++ context_of (c' :: rest))%string)
  /\ paragraph_break = String (ascii_of_nat 10) (String (ascii_of_nat 10) EmptyString).
Proof.
  unfold context_of. repeat split; intros; rewrite ?join_concat; reflexivity.
Qed.

(** C9. Ranking is a deterministic function of the chunk sequence and the
    question: whatever arrangement the engine's sort returns, as long as it
    is in descending order of score and keeps chunks of equal score in
    their order, two invocations give the same ordered result, the one
    [relevantChunks] computes. *)
Theorem ranking_deterministic
  (toLowerCase : string -> string) (chunks : list Chunk) (question : string)
  (sorted1 sorted2 : list ScoredChunk) :
  stable_sorted (candidates toLowerCase chunks question) sorted1 ->
  stable_sorted (candidates toLowerCase chunks question) sorted2 ->
  Js.slice sorted1 0 3 = Js.slice sorted2 0 3
  /\ Js.slice sorted1 0 3 = relevantChunks toLowerCase chunks question.
Proof.
  intros H1 H2.
  pose proof (sort_stable_sorted (candidates toLowerCase chunks question)) as H0.
  rewrite (stable_sorted_unique _ _ _ H1 H0), (stable_sorted_unique _ _ _ H2 H0).
  split; reflexivity.
Qed.

(** C9 on the concrete document: the arrangement the insertion sort returns
    and the candidates as they stand are both admissible, and they give the
    same ranking. *)
Lemma ranking_deterministic_witness :
  let cands := candidates toLowerCase_latin1 [Example.chunk0; Example.chunk1] "SECTION" in
  Js.slice (Js.sort by_score_desc cands) 0 3 = Js.slice cands 0 3
  /\ Js.slice (Js.sort by_score_desc cands) 0 3
     = relevantChunks toLowerCase_latin1 [Example.chunk0; Example.chunk1] "SECTION".
Proof.
  apply (ranking_deterministic toLowerCase_latin1
           [Example.chunk0; Example.chunk1] "SECTION").
  - apply sort_stable_sorted.
  - split; [apply Permutation_refl|].
    split; [|intros k; reflexivity].
    vm_compute. repeat constructor; vm_compute; discriminate.
Defined.

(** ** Runs of the edge function *)

Section HandlerFacts.
Variable toLowerCase : string -> string.
Variable JSON_parse : string -> option JsValue.

(** A run that gets as far as the ranking, step by step. *)
Lemma handler_run (env : Env) (req : Request) (w : World)
  (user : User) (payload : RequestBody) (document : Document) :
  reaches_gateway env req user payload document ->
  handler toLowerCase JSON_parse env req w =
    let relevant := relevantChunks toLowerCase (chunks document) (question payload) in
    let g := gateway_request env (context_of relevant) (question payload) in
    let w1 :=
      add_sent g
        (add_console (console_log [Txt "Analyzing document:"; Txt (documentId payload);
                                   Txt "Question:"; Txt (question payload)]) w) in
    match fetch_gateway env g with
    | FetchRejects e => failed e w1
    | NotOk st errorText =>
        failed "AI analysis failed"
          (add_console (console_error [Txt "AI gateway error:"; Num st; Txt errorText]) w1)
    | OkUnreadable e => failed e w1
    | OkContent content =>
        match parse_or_fallback JSON_parse content relevant with
        | JNull => failed "Cannot read properties of null (reading 'answer')" w1
        | result =>
            (ok_response result,
             add_console (console_log [Txt "Analysis complete"])
               (stored env (row_of user payload result) w1))
        end
    end.
Proof.
  intros (Hm & h & Ha & Hu & Hj & Hd).
  unfold handler. apply String.eqb_neq in Hm. rewrite Hm.
  unfold analyze, bind. rewrite Ha. cbn [ret]. rewrite Hu, Hj. cbn [ret log].
  rewrite Hd. cbn [ret fetch]. cbv zeta.
  destruct (fetch_gateway env _) as [e | st txt | e | content]; try reflexivity.
  cbn [ret]. destruct (parse_or_fallback JSON_parse content _) eqn:R;
    try reflexivity;
    unfold get, ret, insert, stored, row_of, field;
    destruct (queries_insert_error env _); reflexivity.
Qed.

(** A run in which the gateway replies with a content and the result is not
    [null]: the result is sent back, after the insert was tried. *)
Lemma handler_run_ok (env : Env) (req : Request) (w : World)
  (user : User) (payload : RequestBody) (document : Document)
  (content : string) (result : JsValue) :
  let relevant := relevantChunks toLowerCase (chunks document) (question payload) in
  let g := gateway_request env (context_of relevant) (question payload) in
  reaches_gateway env req user payload document ->
  fetch_gateway env g = OkContent content ->
  parse_or_fallback JSON_parse content relevant = result ->
  result <> JNull ->
  handler toLowerCase JSON_parse env req w =
    (ok_response result,
     add_console (console_log [Txt "Analysis complete"])
       (stored env (row_of user payload result)
          (add_sent g
             (add_console
                (console_log [Txt "Analyzing document:"; Txt (documentId payload);
                              Txt "Question:"; Txt (question payload)]) w)))).
Proof.
  intros relevant g Hr Hf Hp Hn.
  rewrite (handler_run env req w user payload document Hr).
  cbv zeta. fold relevant. fold g. rewrite Hf, Hp.
  destruct result; try reflexivity. congruence.
Qed.

End HandlerFacts.

(** The concrete request gets as far as the ranking. *)
Lemma example_reaches (reply : FetchOutcome) (insert_error : option string) (q : string) :
  reaches_gateway (Example.env reply insert_error) (Example.request q)
    {| user_id := "user-1" |} {| documentId := "doc-1"; question := q |}
    Example.document.
Proof.
  split; [discriminate|]. exists "Bearer token-1". repeat split.
Defined.

(** ** The fallback record *)

Lemma fallback_result_preview (aiResponse : string) (relevant : list ScoredChunk) :
  fallback_result aiResponse relevant
  = JObject
      [ ("answer", JString aiResponse);
        ("evidence", JArray (map (fun c => JString (preview c)) relevant));
        ("confidence_score", JNumber 75 0);
        ("reasoning", JString "Analysis based on document context") ].
Proof.
  unfold fallback_result, preview.
  rewrite (map_ext (fun c => JString (Js.substring (s_text c) 0 200 ++ "..."))
                   (fun c => JString (Js.take 200 (s_text c) ++ "...")));
    [reflexivity|].
  intros c. do 2 f_equal. exact (substring_from_0 (s_text c) 200).
Qed.

Lemma length_preview (c : ScoredChunk) : (String.length (preview c) <= 203)%nat.
Proof.
  unfold preview. rewrite length_append, length_take.
  change (String.length "...") with 3%nat. lia.
Qed.

(** C2, as stated, fails: with the one matching chunk "Section 1: Knee
    surgery is covered under" and a reply that is plain prose, the evidence
    of the result is that text followed by "...", which is no truncation of
    the chunk text, whatever the preview length. *)
Lemma fallback_evidence_not_a_truncation :
  JSON_parse_model "It is covered." = None
  /\ fst (Example.run (OkContent "It is covered.") None "knee surgery")
     = ok_response
         (JObject
            [ ("answer", JString "It is covered.");
              ("evidence", JArray [JString "Section 1: Knee surgery is covered under..."]);
              ("confidence_score", JNumber 75 0);
              ("reasoning", JString "Analysis based on document context") ])
  /\ forall bound : nat,
       JArray [JString "Section 1: Knee surgery is covered under..."]
       <> truncated_evidence bound
            (relevantChunks toLowerCase_latin1 (chunks Example.document) "knee surgery").
Proof.
  split; [reflexivity|]. split; [reflexivity|].
  intros bound H.
  replace (relevantChunks toLowerCase_latin1 (chunks Example.document) "knee surgery")
    with [ {| s_text := "Section 1: Knee surgery is covered under";
              s_index := 0; score := 1 |} ] in H by reflexivity.
  unfold truncated_evidence in H. cbn [map s_text] in H.
  injection H as H. apply (f_equal String.length) in H.
  rewrite length_take in H. simpl in H. lia.
Qed.

(** C2, amended.  For every reply of the reasoning service whose content
    fails to parse as JSON, the result sent back has [answer] equal to the
    raw content, [evidence] equal to the texts of the ranked chunks (at most
    3), each cut to its first 200 characters and followed by "..." (at most
    203 characters), [confidence_score] equal to 75 and [reasoning] equal
    to the note "Analysis based on document context". *)
Theorem fallback_on_unparsable_reply
  (toLowerCase : string -> string) (JSON_parse : string -> option JsValue)
  (env : Env) (req : Request) (w : World)
  (user : User) (payload : RequestBody) (document : Document) (content : string) :
  let relevant := relevantChunks toLowerCase (chunks document) (question payload) in
  reaches_gateway env req user payload document ->
  fetch_gateway env (gateway_request env (context_of relevant) (question payload))
    = OkContent content ->
  JSON_parse content = None ->
  fst (handler toLowerCase JSON_parse env req w)
  = ok_response
      (JObject
         [ ("answer", JString content);
           ("evidence", JArray (map (fun c => JString (preview c)) relevant));
           ("confidence_score", JNumber 75 0);
           ("reasoning", JString "Analysis based on document context") ])
  /\ (List.length relevant <= 3)%nat
  /\ Forall (fun c => (String.length (preview c) <= 203)%nat
                      /\ preview c = (Js.substring (s_text c) 0 200 ++ "...")%string
                      /\ In (unscored c) (chunks document)
                      /\ Matches toLowerCase (question payload) (unscored c)) relevant.
Proof.
  intros relevant Hr Hf Hp.
  rewrite (handler_run toLowerCase JSON_parse env req w user payload document Hr).
  cbv zeta. fold relevant. rewrite Hf. unfold parse_or_fallback. rewrite Hp.
  rewrite fallback_result_preview. split; [reflexivity|].
  split; [apply length_relevantChunks|].
  apply Forall_forall. intros c Hc.
  split; [apply length_preview|].
  split; [unfold preview; f_equal; symmetry; exact (substring_from_0 (s_text c) 200)|].
  assert (Hu : In (unscored c) (map unscored relevant)) by now apply in_map.
  unfold relevant in Hu. rewrite unscored_relevantChunks in Hu.
  apply In_firstn in Hu. apply filter_In in Hu as [Hi Hm].
  split; [exact Hi | now apply matches_spec].
Qed.

(** The amended C2 on the concrete deployment. *)
Lemma fallback_on_unparsable_reply_witness :
  fst (Example.run (OkContent "It is covered.") None "knee surgery")
  = ok_response
      (JObject
         [ ("answer", JString "It is covered.");
           ("evidence",
             JArray (map (fun c => JString (preview c))
                         (relevantChunks toLowerCase_latin1
                                         (chunks Example.document) "knee surgery")));
           ("confidence_score", JNumber 75 0);
           ("reasoning", JString "Analysis based on document context") ]).
Proof.
  apply (fallback_on_unparsable_reply toLowerCase_latin1 JSON_parse_model
           (Example.env (OkContent "It is covered.") None)
           (Example.request "knee surgery") Example.world0
           {| user_id := "user-1" |}
           {| documentId := "doc-1"; question := "knee surgery" |}
           Example.document "It is covered.").
  - apply example_reaches.
  - reflexivity.
  - reflexivity.
Defined.

(** ** Failure of the reasoning service *)

(** C3. Whenever the reasoning service cannot be reached or gives up
    ([fetch] rejects), or answers with a non-success status, the analyze
    operation fails: the response is the error response with status 500,
    and no row is added to the [queries] table for that attempt.  (The same
    holds for a success response that cannot be read.) *)
Theorem gateway_failure_fails_without_exchange
  (toLowerCase : string -> string) (JSON_parse : string -> option JsValue)
  (env : Env) (req : Request) (w : World)
  (user : User) (payload : RequestBody) (document : Document) (message : string) :
  let relevant := relevantChunks toLowerCase (chunks document) (question payload) in
  let g := gateway_request env (context_of relevant) (question payload) in
  reaches_gateway env req user payload document ->
  gateway_failure (fetch_gateway env g) = Some message ->
  let run := handler toLowerCase JSON_parse env req w in
  fst run = error_response message
  /\ status (fst run) = 500
  /\ queries (snd run) = queries w
  /\ sent (snd run) = (sent w ++ [g])%list
  /\ (forall e, fetch_gateway env g = FetchRejects e -> message = e)
  /\ (forall st errorText,
        fetch_gateway env g = NotOk st errorText -> message = "AI analysis failed").
Proof.
  intros relevant g Hr Hf run. subst run.
  rewrite (handler_run toLowerCase JSON_parse env req w user payload document Hr).
  cbv zeta. fold relevant. fold g.
  destruct (fetch_gateway env g) as [e | st txt | e | content]; simpl in Hf;
    try discriminate; injection Hf as <-;
    (do 4 (split; [reflexivity|])); split.
  - intros e' E. now injection E.
  - discriminate.
  - discriminate.
  - reflexivity.
  - discriminate.
  - discriminate.
Qed.

(** C3 on the concrete deployment: the gateway answers 429. *)
Lemma gateway_failure_fails_without_exchange_witness :
  let run := Example.run (NotOk 429 "rate limited") None "knee surgery" in
  fst run = error_response "AI analysis failed"
  /\ status (fst run) = 500
  /\ queries (snd run) = [].
Proof.
  destruct (gateway_failure_fails_without_exchange
              toLowerCase_latin1 JSON_parse_model
              (Example.env (NotOk 429 "rate limited") None)
              (Example.request "knee surgery") Example.world0
              {| user_id := "user-1" |}
              {| documentId := "doc-1"; question := "knee surgery" |}
              Example.document "AI analysis failed"
              (example_reaches _ _ _) eq_refl) as (H1 & H2 & H3 & _).
  repeat split; assumption.
Defined.

(** ** Acceptance of the reply *)

(** C4, as stated, fails: a reply that parses as JSON but has not the
    Structured shape is accepted as it is, and does not go to the fallback
    path. *)
Lemma misshapen_reply_accepted :
  JSON_parse_model misshapen_reply = Some (JObject [("answer", JNumber 5 0)])
  /\ structured_shape (JObject [("answer", JNumber 5 0)]) = false
  /\ fst (Example.run (OkContent misshapen_reply) None "knee surgery")
     = ok_response (JObject [("answer", JNumber 5 0)])
  /\ fst (Example.run (OkContent misshapen_reply) None "knee surgery")
     <> ok_response
          (fallback_result misshapen_reply
             (relevantChunks toLowerCase_latin1 (chunks Example.document) "knee surgery")).
Proof.
  repeat split; try reflexivity. vm_compute. discriminate.
Qed.

(** C4, amended.  A reply is accepted as it is whenever its content parses
    as JSON to a value other than [null], whatever the fields of that value;
    in particular when it has the Structured shape.  A reply goes to the
    fallback path exactly when its content fails to parse as JSON. *)
Theorem reply_accepted_when_it_parses
  (toLowerCase : string -> string) (JSON_parse : string -> option JsValue)
  (env : Env) (req : Request) (w : World)
  (user : User) (payload : RequestBody) (document : Document) (content : string) :
  let relevant := relevantChunks toLowerCase (chunks document) (question payload) in
  reaches_gateway env req user payload document ->
  fetch_gateway env (gateway_request env (context_of relevant) (question payload))
    = OkContent content ->
  (forall v, JSON_parse content = Some v -> v <> JNull ->
     fst (handler toLowerCase JSON_parse env req w) = ok_response v)
  /\ (forall v, JSON_parse content = Some v -> structured_shape v = true ->
        fst (handler toLowerCase JSON_parse env req w) = ok_response v)
  /\ (JSON_parse content = None ->
        fst (handler toLowerCase JSON_parse env req w)
        = ok_response (fallback_result content relevant))
  /\ (forall v, JSON_parse content = Some v ->
        parse_or_fallback JSON_parse content relevant = v).
Proof.
  intros relevant Hr Hf.
  assert (A : forall v, parse_or_fallback JSON_parse content relevant = v ->
                        v <> JNull ->
                        fst (handler toLowerCase JSON_parse env req w) = ok_response v).
  { intros v Hv Hn.
    now rewrite (handler_run_ok toLowerCase JSON_parse env req w user payload
                   document content v Hr Hf Hv Hn). }
  unfold parse_or_fallback in *.
  split; [|split; [|split]].
  - intros v Hv Hn. apply A; [now rewrite Hv | exact Hn].
  - intros v Hv Hs. apply A; [now rewrite Hv|]. intros ->. discriminate.
  - intros Hp. apply A; [now rewrite Hp | discriminate].
  - intros v Hv. now rewrite Hv.
Qed.

(** The amended C4 on the concrete deployment: a Structured reply is sent
    back as it is. *)
Lemma reply_accepted_when_it_parses_witness :
  structured_shape
    (JObject [ ("answer", JString "Yes");
               ("evidence", JArray [JString "Knee surgery is covered"]);
               ("confidence_score", JNumber 90 0);
               ("reasoning", JString "Stated in section 1") ]) = true
  /\ fst (Example.run (OkContent structured_reply) None "knee surgery")
     = ok_response
         (JObject [ ("answer", JString "Yes");
                    ("evidence", JArray [JString "Knee surgery is covered"]);
                    ("confidence_score", JNumber 90 0);
                    ("reasoning", JString "Stated in section 1") ]).
Proof.
  split; [reflexivity|].
  destruct (reply_accepted_when_it_parses
              toLowerCase_latin1 JSON_parse_model
              (Example.env (OkContent structured_reply) None)
              (Example.request "knee surgery") Example.world0
              {| user_id := "user-1" |}
              {| documentId := "doc-1"; question := "knee surgery" |}
              Example.document structured_reply
              (example_reaches _ _ _) eq_refl) as (_ & H & _).
  apply H; reflexivity.
Defined.

(** ** Empty context *)

(** C6, as stated, fails: with a question that no chunk matches, a reply
    whose content parses as JSON is sent back as it is, also when it has
    neither the Structured shape nor the shape of the fallback record. *)
Lemma empty_context_reply_of_no_shape :
  relevantChunks toLowerCase_latin1 (chunks Example.document) "Is knee surgery covered?"
  = []
  /\ fst (Example.run (OkContent misshapen_reply) None "Is knee surgery covered?")
     = ok_response (JObject [("answer", JNumber 5 0)])
  /\ structured_shape (JObject [("answer", JNumber 5 0)]) = false
  /\ JObject [("answer", JNumber 5 0)] <> fallback_result misshapen_reply [].
Proof.
  split; [reflexivity|]. split; [reflexivity|]. split; [reflexivity|].
  vm_compute. discriminate.
Qed.

(** C6, amended.  When no chunk matches the normalized question, the
    ranking is empty, the assembled context is the empty string, and the
    synthesis still proceeds: the request to the reasoning service is
    issued, with the empty context in its user message, and a reply is
    turned into a result as for any other context: a content that does not
    parse gives the fallback record, with no evidence, which has the
    Structured shape; a content that parses to a value other than [null] is
    sent back as it is, whatever its shape, and so a content of the
    Structured shape is sent back with the status 200. *)
Theorem empty_context_proceeds
  (toLowerCase : string -> string) (JSON_parse : string -> option JsValue)
  (env : Env) (req : Request) (w : World)
  (user : User) (payload : RequestBody) (document : Document) :
  reaches_gateway env req user payload document ->
  (forall c, In c (chunks document) -> ~ Matches toLowerCase (question payload) c) ->
  let relevant := relevantChunks toLowerCase (chunks document) (question payload) in
  let g := gateway_request env EmptyString (question payload) in
  let run := handler toLowerCase JSON_parse env req w in
  relevant = []
  /\ context_of relevant = EmptyString
  /\ sent (snd run) = (sent w ++ [g])%list
  /\ user_content g
     = ("Context from document:" ++ newline ++ newline ++ newline
          ++ "Question: " ++ question payload)%string
  /\ (forall content, fetch_gateway env g = OkContent content ->
        (JSON_parse content = None ->
           fst run
           = ok_response
               (JObject
                  [ ("answer", JString content);
                    ("evidence", JArray []);
                    ("confidence_score", JNumber 75 0);
                    ("reasoning", JString "Analysis based on document context") ])
           /\ structured_shape
                (JObject
                   [ ("answer", JString content);
                     ("evidence", JArray []);
                     ("confidence_score", JNumber 75 0);
                     ("reasoning", JString "Analysis based on document context") ])
              = true)
        /\ (forall v, JSON_parse content = Some v -> v <> JNull ->
              fst run = ok_response v)
        /\ (forall v, JSON_parse content = Some v -> structured_shape v = true ->
              fst run = ok_response v /\ status (fst run) = 200)).
Proof.
  intros Hr Hnone relevant g run.
  assert (E : relevant = []) by now apply relevantChunks_none.
  assert (C : context_of relevant = EmptyString) by now rewrite E.
  split; [exact E|]. split; [exact C|]. split; [|split; [reflexivity|]].
  - unfold run.
    rewrite (handler_run toLowerCase JSON_parse env req w user payload document Hr).
    cbv zeta. fold relevant. rewrite C. fold g.
    destruct (fetch_gateway env g) as [e | st txt | e | content]; try reflexivity.
    destruct (parse_or_fallback JSON_parse content relevant); try reflexivity;
      simpl; unfold stored; destruct (queries_insert_error env _); reflexivity.
  - intros content Hf.
    assert (Hf' : fetch_gateway env
                    (gateway_request env (context_of relevant) (question payload))
                  = OkContent content) by now rewrite C.
    assert (A : forall v, JSON_parse content = Some v -> v <> JNull ->
                          fst run = ok_response v).
    { intros v Hv Hn. unfold run.
      rewrite (handler_run_ok toLowerCase JSON_parse env req w user payload
                 document content v Hr Hf'); [reflexivity| |exact Hn].
      unfold parse_or_fallback. now rewrite Hv. }
    split; [|split; [exact A|]].
    + intros Hp. split; [|reflexivity]. unfold run.
      rewrite (handler_run_ok toLowerCase JSON_parse env req w user payload
                 document content (fallback_result content []) Hr Hf').
      * reflexivity.
      * fold relevant. rewrite E. unfold parse_or_fallback. now rewrite Hp.
      * discriminate.
    + intros v Hv Hs.
      assert (Hn : v <> JNull) by (intros ->; discriminate).
      rewrite (A v Hv Hn). split; reflexivity.
Qed.

(** The amended C6 on the concrete deployment: the question of the
    scenario, as a whole sentence, is in no chunk. *)
Lemma empty_context_proceeds_witness :
  let run := Example.run (OkContent "It is covered.") None "Is knee surgery covered?" in
  sent (snd run)
  = [gateway_request (Example.env (OkContent "It is covered.") None)
       EmptyString "Is knee surgery covered?"]
  /\ fst run
     = ok_response
         (JObject
            [ ("answer", JString "It is covered.");
              ("evidence", JArray []);
              ("confidence_score", JNumber 75 0);
              ("reasoning", JString "Analysis based on document context") ]).
Proof.
  assert (N : forall c, In c (chunks Example.document) ->
                ~ Matches toLowerCase_latin1 "Is knee surgery covered?" c).
  { intros c Hc Hm. apply matches_spec in Hm.
    simpl in Hc. destruct Hc as [<- | [<- | []]]; vm_compute in Hm; discriminate. }
  destruct (empty_context_proceeds
              toLowerCase_latin1 JSON_parse_model
              (Example.env (OkContent "It is covered.") None)
              (Example.request "Is knee surgery covered?") Example.world0
              {| user_id := "user-1" |}
              {| documentId := "doc-1"; question := "Is knee surgery covered?" |}
              Example.document (example_reaches _ _ _) N) as (_ & _ & S & _ & R).
  split; [exact S|].
  destruct (R "It is covered." eq_refl) as [F _]. apply F. reflexivity.
Defined.

(** ** Persistence *)

(** C8, as stated, fails: with the storage refusing the insert, the run
    answers and logs exactly what it does when the insert succeeds, so the
    failure is reported nowhere; the row is missing all the same. *)
Lemma persistence_failure_not_reported :
  let failing := Example.run (OkContent "It is covered.")
                             (Some "connection refused") "knee surgery" in
  let storing := Example.run (OkContent "It is covered.") None "knee surgery" in
  ~ persistence_failure_reported failing storing
  /\ status (fst failing) = 200
  /\ queries (snd failing) = []
  /\ List.length (queries (snd storing)) = 1%nat.
Proof.
  split; [intros H; now apply H | repeat split].
Qed.

(** C8, amended.  If persisting the Exchange record fails, the answer
    already computed is still returned: the response and the console of the
    run are the same whatever the storage does with the insert, so a
    persistence failure never turns a successful analysis into an error; the
    failure itself is not reported, the outcome of the insert being
    dropped. *)
Theorem persistence_failure_keeps_answer
  (toLowerCase : string -> string) (JSON_parse : string -> option JsValue)
  (env : Env) (f : QueryRow -> option string) (req : Request) (w : World) :
  observable (handler toLowerCase JSON_parse (with_insert_error env f) req w)
  = observable (handler toLowerCase JSON_parse env req w)
  /\ sent (snd (handler toLowerCase JSON_parse (with_insert_error env f) req w))
     = sent (snd (handler toLowerCase JSON_parse env req w)).
Proof.
  unfold observable, handler.
  destruct (String.eqb (method req) "OPTIONS"); [split; reflexivity|].
  unfold analyze, bind.
  destruct (authorization req) as [h|]; [|split; reflexivity].
  cbn [ret with_insert_error auth_getUser].
  destruct (auth_getUser env _) as [user|]; [|split; reflexivity].
  cbn [ret]. destruct (json req) as [payload|e]; [|split; reflexivity].
  cbn [ret log with_insert_error documents_single].
  destruct (documents_single env _) as [document|]; [|split; reflexivity].
  cbn [ret fetch with_insert_error fetch_gateway]. cbv zeta.
  change (gateway_request (with_insert_error env f)) with (gateway_request env).
  destruct (fetch_gateway env _) as [e | st txt | e | content];
    try (split; reflexivity).
  cbn [ret].
  destruct (parse_or_fallback JSON_parse content _); try (split; reflexivity);
    unfold get, ret, insert; cbn [with_insert_error queries_insert_error];
    match goal with
    | |- context [f ?row] =>
        destruct (f row); destruct (queries_insert_error env row)
    end; split; reflexivity.
Qed.

(** ** The question form *)

Lemma trimStart_empty (s : string) : Js.trimStart s = EmptyString <-> blank s = true.
Proof.
  induction s as [|c s IH]; simpl; [tauto|].
  destruct (Js.isWhiteSpace c); simpl; [exact IH|].
  split; discriminate.
Qed.

Lemma trimEnd_empty (s : string) : Js.trimEnd s = EmptyString <-> blank s = true.
Proof.
  induction s as [|c s IH]; simpl; [tauto|].
  destruct (Js.trimEnd s) as [|d t].
  - destruct (Js.isWhiteSpace c); simpl; [|split; discriminate].
    split; intros _; [now apply IH | reflexivity].
  - split; [discriminate|]. rewrite andb_true_iff. intros [_ B].
    apply IH in B. discriminate.
Qed.

Lemma trimStart_blank (s : string) : blank (Js.trimStart s) = blank s.
Proof.
  induction s as [|c s IH]; simpl; [reflexivity|].
  destruct (Js.isWhiteSpace c) eqn:W; simpl; [exact IH | now rewrite W].
Qed.

(** [trim] gives the empty string exactly on the strings that are empty or
    hold white space only. *)
Lemma trim_empty (s : string) : Js.trim s = EmptyString <-> blank s = true.
Proof. unfold Js.trim. now rewrite trimEnd_empty, trimStart_blank. Qed.

(** C10. The question form never issues an analyze request for an empty or
    whitespace-only question: when the trim of the question is empty (that
    is, when the question holds white space only), submitting the form
    returns with the default action prevented and nothing else done, no call
    of the analyze function among its effects and the state unchanged, and
    the submit button is disabled. *)
Theorem blank_question_not_submitted
  (documentId : string)
  (functions_invoke : string -> string -> string -> QueryInterface.InvokeOutcome)
  (st : QueryInterface.State) :
  Js.trim (QueryInterface.question st) = EmptyString ->
  blank (QueryInterface.question st) = true
  /\ QueryInterface.handleSubmit documentId functions_invoke st
     = (st, [QueryInterface.preventDefault])
  /\ QueryInterface.invokes
       (snd (QueryInterface.handleSubmit documentId functions_invoke st)) = false
  /\ QueryInterface.submit_disabled st = true.
Proof.
  intros H. split; [now apply trim_empty|].
  unfold QueryInterface.handleSubmit, QueryInterface.submit_disabled.
  rewrite H. simpl. split; [reflexivity|]. split; [reflexivity|].
  apply orb_true_r.
Qed.

(** C10 on a question of three spaces. *)
Lemma blank_question_not_submitted_witness :
  let st := {| QueryInterface.question := "   ";
               QueryInterface.isLoading := false;
               QueryInterface.result := None |} in
  QueryInterface.handleSubmit "doc-1"
    (fun _ _ _ => QueryInterface.InvokeData JNull) st
  = (st, [QueryInterface.preventDefault])
  /\ QueryInterface.submit_disabled st = true.
Proof.
  destruct (blank_question_not_submitted "doc-1"
              (fun _ _ _ => QueryInterface.InvokeData JNull)
              {| QueryInterface.question := "   ";
                 QueryInterface.isLoading := false;
                 QueryInterface.result := None |} eq_refl) as (_ & H1 & _ & H2).
  split; assumption.
Defined.

(** The guard lets every other question through: the analyze function is
    called with the document and the question as typed. *)
Lemma nonblank_question_submitted
  (documentId : string)
  (functions_invoke : string -> string -> string -> QueryInterface.InvokeOutcome)
  (st : QueryInterface.State) :
  blank (QueryInterface.question st) = false ->
  In (QueryInterface.invoke "analyze-document" documentId (QueryInterface.question st))
     (snd (QueryInterface.handleSubmit documentId functions_invoke st)).
Proof.
  intros H. unfold QueryInterface.handleSubmit.
  destruct (Js.trim (QueryInterface.question st)) eqn:T.
  - apply trim_empty in T. congruence.
  - simpl. destruct (functions_invoke _ _ _); simpl; auto.
Qed.

(** ** The Chunker *)

Lemma chunks_from_reassemble (bound size : nat) (T : string) (i : Z) :
  (0 < size)%nat -> (String.length T <= bound)%nat ->
  reassemble (chunks_from bound size T i) = T.
Proof.
  intros Hs. revert T i. induction bound as [|b IH]; intros T i Hb.
  - destruct T; [reflexivity | simpl in Hb; lia].
  - destruct T as [|a t]; [reflexivity|].
    cbn [chunks_from reassemble fold_right text].
    fold (reassemble (chunks_from b size (Js.drop size (String a t)) (i + 1))).
    rewrite IH; [apply take_drop|].
    rewrite length_drop. cbn [String.length] in *. lia.
Qed.

Lemma chunks_from_length (bound size : nat) (T : string) (i : Z) :
  (0 < size)%nat -> (String.length T <= bound)%nat ->
  List.length (chunks_from bound size T i)
  = ((String.length T + size - 1) / size)%nat.
Proof.
  intros Hs. revert T i. induction bound as [|b IH]; intros T i Hb.
  - destruct T; [|simpl in Hb; lia]. simpl.
    symmetry. apply Nat.div_small. lia.
  - destruct T as [|a t].
    + simpl. symmetry. apply Nat.div_small. lia.
    + cbn [chunks_from List.length]. rewrite IH by (rewrite length_drop; cbn [String.length] in *; lia).
      rewrite length_drop. set (n := String.length (String a t)).
      assert (Hn : (1 <= n)%nat) by (unfold n; cbn [String.length]; lia).
      replace (n + size - 1)%nat with ((n - 1) + 1 * size)%nat by lia.
      rewrite Nat.div_add by lia.
      destruct (Nat.le_gt_cases n size) as [L | G].
      * replace (n - size + size - 1)%nat with (size - 1)%nat by lia.
        rewrite !Nat.div_small by lia. reflexivity.
      * replace (n - size + size - 1)%nat with (n - 1)%nat by lia. lia.
Qed.

Lemma chunks_from_nth (bound size : nat) (T : string) (i : Z) (k : nat) (c : Chunk) :
  (0 < size)%nat -> (String.length T <= bound)%nat ->
  nth_error (chunks_from bound size T i) k = Some c ->
  index c = i + Z.of_nat k
  /\ (1 <= String.length (text c) <= size)%nat
  /\ ((S k < List.length (chunks_from bound size T i))%nat ->
      String.length (text c) = size).
Proof.
  intros Hs. revert T i k. induction bound as [|b IH]; intros T i k Hb Hn.
  - destruct k; discriminate.
  - destruct T as [|a t]; [destruct k; discriminate|].
    cbn [chunks_from] in *.
    assert (Hd : (String.length (Js.drop size (String a t)) <= b)%nat)
      by (rewrite length_drop; cbn [String.length] in *; lia).
    destruct k as [|k].
    + injection Hn as <-. cbn [index text List.length].
      rewrite length_take. split; [lia|]. split; [cbn [String.length]; lia|].
      intros Hl. rewrite chunks_from_length in Hl by assumption.
      rewrite length_drop in Hl.
      destruct (Nat.le_gt_cases (String.length (String a t)) size) as [L | G]; [|lia].
      replace (String.length (String a t) - size + size - 1)%nat
        with (size - 1)%nat in Hl by lia.
      rewrite Nat.div_small in Hl by lia. lia.
    + simpl in Hn. destruct (IH _ _ _ Hd Hn) as (Hi & Hl & Hf).
      split; [lia|]. split; [exact Hl|].
      intros Hk. apply Hf. cbn [List.length] in Hk. lia.
Qed.

(** The Chunker of the specification, for every chunk size above 0, gives
    ceil(len/size) chunks (the least number of pieces of that size that
    cover the text), whose texts put end to end in index order give the text
    back; the chunk at position [k] has index [k]; every chunk except
    possibly the last has exactly [size] characters, no chunk is empty or
    longer than [size]; and the empty string gives no chunk. *)
Lemma spec_chunker_coverage (size : nat) (T : string) :
  (0 < size)%nat ->
  let cs := chunker size T in
  reassemble cs = T
  /\ List.length cs = ((String.length T + size - 1) / size)%nat
  /\ (String.length T <= List.length cs * size)%nat
  /\ (forall m, (String.length T <= m * size)%nat -> (List.length cs <= m)%nat)
  /\ (forall k c, nth_error cs k = Some c ->
        index c = Z.of_nat k
        /\ (1 <= String.length (text c) <= size)%nat
        /\ ((S k < List.length cs)%nat -> String.length (text c) = size))
  /\ chunker size EmptyString = [].
Proof.
  intros Hs cs. unfold cs, chunker.
  pose proof (chunks_from_length (String.length T) size T 0 Hs (Nat.le_refl _)) as HL.
  split; [now apply chunks_from_reassemble|]. split; [exact HL|].
  rewrite HL.
  pose proof (Nat.div_mod_eq (String.length T + size - 1) size) as E.
  pose proof (Nat.mod_upper_bound (String.length T + size - 1) size) as U.
  set (q := ((String.length T + size - 1) / size)%nat) in *.
  set (r := ((String.length T + size - 1) mod size)%nat) in *.
  split; [nia|]. split; [intros m Hm; nia|]. split; [|reflexivity].
  intros k c Hn.
  destruct (chunks_from_nth _ size T 0 k c Hs (Nat.le_refl _) Hn) as (Hi & Hl & Hf).
  split; [lia|]. split; [exact Hl|]. intros Hk. apply Hf. now rewrite HL.
Qed.

(** The Chunker of the specification on the text of the scenario, with
    chunk size 40. *)
Lemma spec_chunker_scenario :
  let T := "Section 1: Knee surgery is covered under plan B. Section 2: Dental is excluded." in
  chunker 40 T = [Example.chunk0; Example.chunk1]
  /\ reassemble (chunker 40 T) = T
  /\ List.length (chunker 40 T) = 2%nat.
Proof.
  split; [reflexivity|].
  destruct (spec_chunker_coverage 40
    "Section 1: Knee surgery is covered under plan B. Section 2: Dental is excluded.")
    as (H1 & H2 & _); [lia|].
  split; [exact H1 | exact H2].
Defined.

(* ================================================================= *)
(** * Further properties of the edge function *)

(** Every run of the handler is of one of three kinds: the preflight
    answer; a failure before the ranking, which leaves the table and the
    gateway alone and logs at most the question before the error; or a run
    that gets as far as the ranking. *)
Lemma handler_cases
  (toLowerCase : string -> string) (JSON_parse : string -> option JsValue)
  (env : Env) (req : Request) (w : World) :
  handler toLowerCase JSON_parse env req w = (Build_Response 200 None, w)
  \/ (exists m w0,
        handler toLowerCase JSON_parse env req w = failed m w0
        /\ queries w0 = queries w /\ sent w0 = sent w
        /\ (console w0 = console w \/ exists e, console w0 = (console w ++ [e])%list))
  \/ (exists user payload document,
        reaches_gateway env req user payload document).
Proof.
  unfold handler.
  destruct (String.eqb (method req) "OPTIONS") eqn:Hm; [now left|].
  apply String.eqb_neq in Hm. right.
  unfold analyze, bind.
  destruct (authorization req) as [h|] eqn:Ha;
    [|left; exists "Cannot read properties of null (reading 'replace')", w; auto].
  cbn [ret].
  destruct (auth_getUser env _) as [user|] eqn:Hu;
    [|left; exists "Unauthorized", w; auto].
  cbn [ret]. destruct (json req) as [payload|e] eqn:Hj;
    [|left; exists e, w; auto].
  cbn [ret log].
  destruct (documents_single env _) as [document|] eqn:Hd.
  - right. exists user, payload, document. split; [exact Hm|].
    exists h. auto.
  - left. eexists "Document not found", _. split; [reflexivity|].
    simpl. split; [reflexivity|]. split; [reflexivity|]. right. eauto.
Qed.

(** What a run that gets as far as the ranking leaves behind: one request
    to the gateway; a row only together with the success response, and then
    the row of the result sent back. *)
Lemma handler_run_effects
  (toLowerCase : string -> string) (JSON_parse : string -> option JsValue)
  (env : Env) (req : Request) (w : World)
  (user : User) (payload : RequestBody) (document : Document) :
  reaches_gateway env req user payload document ->
  let run := handler toLowerCase JSON_parse env req w in
  let g := gateway_request env
             (context_of (relevantChunks toLowerCase (chunks document) (question payload)))
             (question payload) in
  sent (snd run) = (sent w ++ [g])%list
  /\ ((exists m logs,
          fst run = error_response m
          /\ queries (snd run) = queries w
          /\ console (snd run)
             = (console w ++ logs
                  ++ [console_error [Txt "Error analyzing document:"; Err m]])%list)
      \/ (exists result,
            fst run = ok_response result
            /\ result <> JNull
            /\ queries (snd run)
               = queries (stored env (row_of user payload result) w)
            /\ console (snd run)
               = (console w
                    ++ [console_log [Txt "Analyzing document:"; Txt (documentId payload);
                                     Txt "Question:"; Txt (question payload)];
                        console_log [Txt "Analysis complete"]])%list)).
Proof.
  intros Hr run g. unfold run.
  rewrite (handler_run toLowerCase JSON_parse env req w user payload document Hr).
  cbv zeta. fold g.
  destruct (fetch_gateway env g) as [e | st txt | e | content].
  - split; [reflexivity|]. left. exists e. eexists [_].
    repeat split. simpl. now rewrite <- !app_assoc.
  - split; [reflexivity|]. left. exists "AI analysis failed". eexists [_; _].
    repeat split. simpl. now rewrite <- !app_assoc.
  - split; [reflexivity|]. left. exists e. eexists [_].
    repeat split. simpl. now rewrite <- !app_assoc.
  - destruct (parse_or_fallback JSON_parse content _) eqn:R;
      try (split; [unfold stored; destruct (queries_insert_error env _); reflexivity|];
           right; eexists; split; [reflexivity|]; split; [discriminate|];
           unfold stored; destruct (queries_insert_error env _); simpl;
           rewrite <- ?app_assoc; auto).
    split; [reflexivity|]. left. eexists _. eexists [_].
    repeat split. simpl. now rewrite <- !app_assoc.
Qed.

(** X1. The gateway is called and the table is written only for a request
    that is not a preflight, carries a token the authentication service
    accepts, has a readable body and names a stored document: a run that
    sends a request or changes the table got as far as the ranking. *)
Theorem effects_need_authorization
  (toLowerCase : string -> string) (JSON_parse : string -> option JsValue)
  (env : Env) (req : Request) (w : World) :
  let run := handler toLowerCase JSON_parse env req w in
  sent (snd run) <> sent w \/ queries (snd run) <> queries w ->
  exists user payload document, reaches_gateway env req user payload document.
Proof.
  intros run H. unfold run in H.
  destruct (handler_cases toLowerCase JSON_parse env req w)
    as [E | [(m & w0 & E & Hq & Hs & _) | R]]; [| |exact R]; rewrite E in H.
  - simpl in H. destruct H as [H | H]; now elim H.
  - simpl in H. rewrite Hq, Hs in H. destruct H as [H | H]; now elim H.
Qed.

(** X1 on the concrete deployment: a run that calls the gateway. *)
Lemma effects_need_authorization_witness :
  exists user payload document,
    reaches_gateway (Example.env (OkContent "It is covered.") None)
      (Example.request "knee surgery") user payload document.
Proof.
  apply (effects_need_authorization toLowerCase_latin1 JSON_parse_model
           (Example.env (OkContent "It is covered.") None)
           (Example.request "knee surgery") Example.world0).
  left. vm_compute. discriminate.
Defined.

(** X2. A run only appends: the rows and the requests that were there stay,
    in place; at most one request and at most one row are added, and a row
    is added only after the gateway was called and with the success
    status. *)
Theorem run_appends_at_most_one
  (toLowerCase : string -> string) (JSON_parse : string -> option JsValue)
  (env : Env) (req : Request) (w : World) :
  let run := handler toLowerCase JSON_parse env req w in
  exists (rows : list QueryRow) (reqs : list GatewayRequest),
    queries (snd run) = (queries w ++ rows)%list
    /\ sent (snd run) = (sent w ++ reqs)%list
    /\ (List.length rows <= 1)%nat
    /\ (List.length reqs <= 1)%nat
    /\ (rows <> [] -> reqs <> [] /\ status (fst run) = 200).
Proof.
  intros run. unfold run.
  destruct (handler_cases toLowerCase JSON_parse env req w)
    as [E | [(m & w0 & E & Hq & Hs & _) | (user & payload & document & R)]].
  - rewrite E. exists [], []. simpl. rewrite !app_nil_r. repeat split; auto; congruence.
  - rewrite E. exists [], []. simpl. rewrite !app_nil_r, Hq, Hs.
    repeat split; auto; congruence.
  - destruct (handler_run_effects toLowerCase JSON_parse env req w user payload
                document R) as (Hs & [(m & logs & Hf & Hq & _) | (result & Hf & _ & Hq & _)]).
    + match type of Hs with _ = (_ ++ ?r)%list => exists [], r end.
      rewrite Hq, Hs, app_nil_r. repeat split; auto; congruence.
    + unfold stored in Hq.
      destruct (queries_insert_error env _).
      * match type of Hs with _ = (_ ++ ?r)%list => exists [], r end.
        rewrite Hq, Hs, app_nil_r. repeat split; auto; congruence.
      * match type of Hs with _ = (_ ++ ?r)%list =>
          exists [row_of user payload result], r end.
        rewrite Hq, Hs, Hf. repeat split; auto; discriminate.
Qed.

(** X3. The status of a response is 200 or 500.  With 500 the body holds
    the message of the error, the last console entry is that error, and the
    table is as it was. *)
Theorem failure_stores_nothing
  (toLowerCase : string -> string) (JSON_parse : string -> option JsValue)
  (env : Env) (req : Request) (w : World) :
  let run := handler toLowerCase JSON_parse env req w in
  (status (fst run) = 200 \/ status (fst run) = 500)
  /\ (status (fst run) = 500 ->
      queries (snd run) = queries w
      /\ exists m logs,
           body (fst run) = Some (JObject [("error", JString m)])
           /\ console (snd run)
              = (console w ++ logs
                   ++ [console_error [Txt "Error analyzing document:"; Err m]])%list).
Proof.
  intros run. unfold run.
  destruct (handler_cases toLowerCase JSON_parse env req w)
    as [E | [(m & w0 & E & Hq & Hs & Hc) | (user & payload & document & R)]].
  - rewrite E. simpl. split; [now left | discriminate].
  - rewrite E. simpl. split; [now right|]. intros _. split; [exact Hq|].
    exists m. destruct Hc as [Hc | [e Hc]]; rewrite Hc.
    + now exists [].
    + exists [e]. now rewrite <- app_assoc.
  - destruct (handler_run_effects toLowerCase JSON_parse env req w user payload
                document R) as (_ & [(m & logs & Hf & Hq & Hc) | (result & Hf & _)]).
    + rewrite Hf. simpl. split; [now right|]. intros _. split; [exact Hq|].
      now exists m, logs.
    + rewrite Hf. simpl. split; [now left | discriminate].
Qed.

(** X3 on the concrete deployment: an unknown token. *)
Lemma failure_stores_nothing_witness :
  let run := handler toLowerCase_latin1 JSON_parse_model
               (Example.env (OkContent "It is covered.") None)
               {| method := "POST"; authorization := Some "Bearer stolen";
                  json := Returned {| documentId := "doc-1"; question := "knee" |} |}
               Example.world0 in
  queries (snd run) = []
  /\ body (fst run) = Some (JObject [("error", JString "Unauthorized")]).
Proof.
  destruct (failure_stores_nothing toLowerCase_latin1 JSON_parse_model
              (Example.env (OkContent "It is covered.") None)
              {| method := "POST"; authorization := Some "Bearer stolen";
                 json := Returned {| documentId := "doc-1"; question := "knee" |} |}
              Example.world0) as (_ & H).
  destruct (H eq_refl) as (Hq & _). split; [exact Hq | reflexivity].
Defined.

(** X2 on the concrete deployment: the run that stores a row answers 200. *)
Lemma run_appends_at_most_one_witness :
  status (fst (Example.run (OkContent "It is covered.") None "knee surgery")) = 200.
Proof.
  destruct (run_appends_at_most_one toLowerCase_latin1 JSON_parse_model
              (Example.env (OkContent "It is covered.") None)
              (Example.request "knee surgery") Example.world0)
    as (rows & reqs & Hq & _ & _ & _ & H).
  apply H. intros ->. vm_compute in Hq. discriminate.
Defined.

(** X4. The row stored is the row of the answer sent back: when the
    response is the success response with [result] and the storage takes the
    row, the table gains exactly one row, which carries the id of the user
    the token belongs to, the document id and the question of the request,
    and the four fields of [result] (a field [result] lacks is left
    undefined). *)
Theorem stored_row_matches_response
  (toLowerCase : string -> string) (JSON_parse : string -> option JsValue)
  (env : Env) (req : Request) (w : World)
  (user : User) (payload : RequestBody) (document : Document) (result : JsValue) :
  let run := handler toLowerCase JSON_parse env req w in
  reaches_gateway env req user payload document ->
  fst run = ok_response result ->
  queries_insert_error env (row_of user payload result) = None ->
  exists row,
    queries (snd run) = (queries w ++ [row])%list
    /\ row_user_id row = user_id user
    /\ document_id row = documentId payload
    /\ row_question row = question payload
    /\ answer row = field result "answer"
    /\ evidence row = field result "evidence"
    /\ confidence_score row = field result "confidence_score"
    /\ reasoning row = field result "reasoning".
Proof.
  intros run Hr Hok Hins. unfold run in *.
  destruct (handler_run_effects toLowerCase JSON_parse env req w user payload
              document Hr) as (_ & [(m & logs & Hf & _) | (result' & Hf & _ & Hq & _)]).
  - rewrite Hf in Hok. discriminate.
  - rewrite Hf in Hok. injection Hok as ->.
    exists (row_of user payload result). unfold stored in Hq. rewrite Hins in Hq.
    rewrite Hq. repeat split.
Qed.

(** X4 on the concrete deployment. *)
Lemma stored_row_matches_response_witness :
  exists row,
    queries (snd (Example.run (OkContent structured_reply) None "knee surgery")) = [row]
    /\ row_user_id row = "user-1"
    /\ answer row = Some (JString "Yes")
    /\ confidence_score row = Some (JNumber 90 0).
Proof.
  destruct (stored_row_matches_response toLowerCase_latin1 JSON_parse_model
              (Example.env (OkContent structured_reply) None)
              (Example.request "knee surgery") Example.world0
              {| user_id := "user-1" |}
              {| documentId := "doc-1"; question := "knee surgery" |}
              Example.document
              (JObject [ ("answer", JString "Yes");
                         ("evidence", JArray [JString "Knee surgery is covered"]);
                         ("confidence_score", JNumber 90 0);
                         ("reasoning", JString "Stated in section 1") ])
              (example_reaches _ _ _) eq_refl eq_refl)
    as (row & Hq & Hu & _ & _ & Ha & _ & Hc & _).
  exists row. repeat split; assumption.
Defined.

(** X5. A reply whose content is the JSON text [null] parses, and the run
    then fails on reading [result.answer]: the response is the error
    response with the message of that [TypeError], and no row is stored. *)
Theorem null_reply_fails
  (toLowerCase : string -> string) (JSON_parse : string -> option JsValue)
  (env : Env) (req : Request) (w : World)
  (user : User) (payload : RequestBody) (document : Document) (content : string) :
  let relevant := relevantChunks toLowerCase (chunks document) (question payload) in
  let run := handler toLowerCase JSON_parse env req w in
  reaches_gateway env req user payload document ->
  fetch_gateway env (gateway_request env (context_of relevant) (question payload))
    = OkContent content ->
  JSON_parse content = Some JNull ->
  fst run = error_response "Cannot read properties of null (reading 'answer')"
  /\ queries (snd run) = queries w.
Proof.
  intros relevant run Hr Hf Hp. unfold run.
  rewrite (handler_run toLowerCase JSON_parse env req w user payload document Hr).
  cbv zeta. fold relevant. rewrite Hf. unfold parse_or_fallback. rewrite Hp.
  split; reflexivity.
Qed.

(** X5 on the concrete deployment. *)
Lemma null_reply_fails_witness :
  fst (Example.run (OkContent "null") None "knee surgery")
  = error_response "Cannot read properties of null (reading 'answer')"
  /\ queries (snd (Example.run (OkContent "null") None "knee surgery")) = [].
Proof.
  apply (null_reply_fails toLowerCase_latin1 JSON_parse_model
           (Example.env (OkContent "null") None)
           (Example.request "knee surgery") Example.world0
           {| user_id := "user-1" |}
           {| documentId := "doc-1"; question := "knee surgery" |}
           Example.document "null" (example_reaches _ _ _) eq_refl eq_refl).
Defined.


(** ** The prompt *)

Lemma Contains_refl (s : string) : Contains s s.
Proof. exists EmptyString, EmptyString. simpl. now rewrite append_empty_r. Qed.

Lemma Contains_append (a s b x : string) :
  Contains s x -> Contains (a ++ s ++ b) x.
Proof.
  intros (pre & post & ->). exists (a ++ pre)%string, (post ++ b)%string.
  now rewrite !append_assoc.
Qed.

Lemma Contains_append_l (a s x : string) : Contains s x -> Contains (a ++ s) x.
Proof.
  intros H. rewrite <- (append_empty_r s). now apply Contains_append.
Qed.

Lemma Contains_append_r (s b x : string) : Contains s x -> Contains (s ++ b) x.
Proof. intros H. now apply (Contains_append EmptyString). Qed.

(** An element of a joined array occurs in the result. *)
Lemma join_Contains (arr : list string) (sep x : string) :
  In x arr -> Contains (Js.join arr sep) x.
Proof.
  rewrite join_concat. induction arr as [|e l IH]; intros H; [destruct H|].
  destruct H as [-> | H].
  - destruct l as [|e' l]; simpl; [apply Contains_refl|].
    apply Contains_append_r, Contains_refl.
  - destruct l as [|e' l]; [destruct H|].
    change (String.concat sep (e :: e' :: l))
      with (e ++ sep ++ String.concat sep (e' :: l))%string.
    apply Contains_append_l, Contains_append_l, IH, H.
Qed.

(** X7. The user message posted to the gateway holds the whole text of
    every ranked chunk (not the 200-character preview) and the question as
    it was received; it starts with the line "Context from document:" and
    ends with the question. *)
Theorem prompt_holds_ranked_texts
  (toLowerCase : string -> string) (chunks : list Chunk) (question : string)
  (env : Env) :
  let relevant := relevantChunks toLowerCase chunks question in
  let g := gateway_request env (context_of relevant) question in
  (forall c, In c relevant -> Contains (user_content g) (s_text c))
  /\ (exists middle,
        user_content g
        = ("Context from document:" ++ newline ++ middle
             ++ "Question: " ++ question)%string)
  /\ system_content g = systemPrompt
  /\ bearer g = ("Bearer " ++ LOVABLE_API_KEY env)%string.
Proof.
  intros relevant g. split; [|split; [|split; reflexivity]].
  - intros c Hc. unfold g, gateway_request, user_message. cbn [user_content].
    apply Contains_append_l, Contains_append_l, Contains_append_r.
    unfold context_of. apply join_Contains. now apply in_map.
  - exists (context_of relevant ++ newline ++ newline)%string.
    unfold g, gateway_request, user_message. cbn [user_content].
    now rewrite !append_assoc.
Qed.

(** ** Edge cases of the ranking *)

Lemma includes_empty (s : string) : Js.includes s EmptyString = true.
Proof. destruct s; reflexivity. Qed.

(** X8. The edge function has no guard of its own against an empty
    question: with a lowercasing that maps the empty string to itself, the
    empty question matches every chunk, and the ranking is the first three
    chunks of the document, each with score 1. *)
Theorem relevantChunks_empty_question
  (toLowerCase : string -> string) (chunks : list Chunk) :
  toLowerCase EmptyString = EmptyString ->
  relevantChunks toLowerCase chunks EmptyString
  = map (fun c => {| s_text := text c; s_index := index c; score := 1 |})
        (firstn 3 chunks).
Proof.
  intros H. rewrite relevantChunks_firstn. unfold candidates. rewrite H.
  rewrite <- firstn_map. f_equal.
  induction chunks as [|c l IH]; [reflexivity|].
  cbn [map filter]. rewrite <- IH.
  unfold with_score at 1 2, score_of. cbn [score].
  now rewrite includes_empty.
Qed.

(** X8 on the concrete document. *)
Lemma relevantChunks_empty_question_witness :
  relevantChunks toLowerCase_latin1 (chunks Example.document) EmptyString
  = [ {| s_text := text Example.chunk0; s_index := 0; score := 1 |};
      {| s_text := text Example.chunk1; s_index := 1; score := 1 |} ].
Proof.
  apply (relevantChunks_empty_question toLowerCase_latin1 (chunks Example.document)).
  reflexivity.
Defined.

Lemma firstn_app_firstn {A : Type} (n k m : nat) (a b : list A) :
  (n <= k)%nat -> (n <= m)%nat ->
  firstn n (firstn k a ++ firstn m b) = firstn n (a ++ b).
Proof.
  revert n k. induction a as [|x a IH]; intros n k Hk Hm.
  - rewrite firstn_nil. simpl. rewrite firstn_firstn. now rewrite Nat.min_l.
  - destruct n as [|n]; [reflexivity|]. destruct k as [|k]; [lia|].
    simpl. f_equal. apply IH; lia.
Qed.

Lemma candidates_app (toLowerCase : string -> string)
  (l1 l2 : list Chunk) (question : string) :
  candidates toLowerCase (l1 ++ l2) question
  = (candidates toLowerCase l1 question ++ candidates toLowerCase l2 question)%list.
Proof. unfold candidates. now rewrite map_app, filter_app. Qed.

(** X9. Ranking a document in two parts: the ranking of the whole is the
    first three of the ranking of the first part followed by the ranking of
    the second part.  So once the first part holds three matches, what
    follows in the document is never returned. *)
Theorem relevantChunks_app
  (toLowerCase : string -> string) (l1 l2 : list Chunk) (question : string) :
  relevantChunks toLowerCase (l1 ++ l2) question
  = firstn 3 (relevantChunks toLowerCase l1 question
                ++ relevantChunks toLowerCase l2 question)
  /\ (List.length (relevantChunks toLowerCase l1 question) = 3%nat ->
      relevantChunks toLowerCase (l1 ++ l2) question
      = relevantChunks toLowerCase l1 question).
Proof.
  rewrite !relevantChunks_firstn, candidates_app.
  split; [symmetry; now apply firstn_app_firstn|].
  intros H. rewrite firstn_app.
  rewrite length_firstn in H.
  replace (3 - List.length (candidates toLowerCase l1 question))%nat with 0%nat by lia.
  now rewrite firstn_0, app_nil_r.
Qed.

(** X9 on the concrete document followed by itself and one more copy. *)
Lemma relevantChunks_app_witness :
  let l1 := [Example.chunk0; Example.chunk1; Example.chunk0] in
  relevantChunks toLowerCase_latin1 (l1 ++ [Example.chunk1; Example.chunk0]) "section"
  = relevantChunks toLowerCase_latin1 l1 "section".
Proof.
  apply (relevantChunks_app toLowerCase_latin1). reflexivity.
Defined.

(* ================================================================= *)
(** * Further properties of the question form *)

(** X10. The colour and the badge variant of a confidence score always name
    the same band: green with the default badge from 80 up, yellow with the
    secondary badge from 60 to 79, red with the destructive badge below
    60. *)
Theorem confidence_bands_agree (score : Z) :
  (80 <= score
   /\ getConfidenceColor score = "text-green-600"
   /\ getConfidenceVariant score = variant_default)
  \/ (60 <= score < 80
      /\ getConfidenceColor score = "text-yellow-600"
      /\ getConfidenceVariant score = variant_secondary)
  \/ (score < 60
      /\ getConfidenceColor score = "text-red-600"
      /\ getConfidenceVariant score = variant_destructive).
Proof.
  unfold getConfidenceColor, getConfidenceVariant.
  destruct (Z.leb_spec 80 score); [left; auto|].
  destruct (Z.leb_spec 60 score); [right; left | right; right]; repeat split; auto.
Qed.

Lemma falsy_trim (s : string) :
  QueryInterface.falsy (Js.trim s) = blank s.
Proof.
  destruct (blank s) eqn:B.
  - apply trim_empty in B. now rewrite B.
  - destruct (Js.trim s) eqn:T; [|reflexivity].
    apply trim_empty in T. congruence.
Qed.



(** X12. A submit of a question that is not blank, answered with an error:
    the analyze function was called once; an answer shown before is gone;
    the question stays as typed and the loading flag is down, so the button
    is enabled for another try; one toast titled "Error" is shown, with the
    message of the error when it is an [Error] instance and "Failed to
    analyze document" otherwise. *)
Theorem submit_failure_keeps_question
  (documentId : string)
  (functions_invoke : string -> string -> string -> QueryInterface.InvokeOutcome)
  (st : QueryInterface.State) (isError : bool) (message : string) :
  blank (QueryInterface.question st) = false ->
  functions_invoke "analyze-document" documentId (QueryInterface.question st)
    = QueryInterface.InvokeError isError message ->
  let st' := {| QueryInterface.question := QueryInterface.question st;
                QueryInterface.isLoading := false;
                QueryInterface.result := None |} in
  QueryInterface.handleSubmit documentId functions_invoke st
  = (st', [QueryInterface.preventDefault;
           QueryInterface.invoke "analyze-document" documentId
             (QueryInterface.question st);
           QueryInterface.console_error_query;
           QueryInterface.toast "Error"
             (if isError then message else "Failed to analyze document")
             "destructive"])
  /\ QueryInterface.submit_disabled st' = false.
Proof.
  intros B E st'. unfold QueryInterface.handleSubmit, QueryInterface.submit_disabled.
  rewrite falsy_trim, B, E. split; [reflexivity|].
  unfold st'. cbn [QueryInterface.isLoading QueryInterface.question orb].
  now rewrite falsy_trim.
Qed.

(** X12 on an error that is no [Error] instance. *)
Lemma submit_failure_keeps_question_witness :
  QueryInterface.submit_disabled
    {| QueryInterface.question := "knee surgery";
       QueryInterface.isLoading := false;
       QueryInterface.result := None |} = false.
Proof.
  apply (submit_failure_keeps_question "doc-1"
           (fun _ _ _ => QueryInterface.InvokeError false "503")
           {| QueryInterface.question := "knee surgery";
              QueryInterface.isLoading := true;
              QueryInterface.result := Some JNull |} false "503");
    reflexivity.
Defined.

(* ================================================================= *)
(** * Properties of the ingestion *)

(** ** The chunking loop *)

Lemma drop_drop (n m : nat) (s : string) :
  Js.drop m (Js.drop n s) = Js.drop (n + m) s.
Proof.
  revert s. induction n as [|n IH]; intros s; [reflexivity|].
  destruct s as [|c s]; simpl; [now destruct m | apply IH].
Qed.

Lemma take_min (k : nat) (s : string) :
  Js.take (Nat.min k (String.length s)) s = Js.take k s.
Proof.
  revert k. induction s as [|c s IH]; intros [|k]; simpl; try reflexivity.
  now rewrite IH.
Qed.

Lemma length_0_empty (s : string) : String.length s = 0%nat -> s = EmptyString.
Proof. destruct s; [reflexivity | discriminate]. Qed.

(** A substring that starts inside the text. *)
Lemma substring_take_drop (s : string) (n k : nat) :
  (n <= String.length s)%nat ->
  Js.substring s (Z.of_nat n) (Z.of_nat n + Z.of_nat k) = Js.take k (Js.drop n s).
Proof.
  intros H. unfold Js.substring, Js.len.
  set (len := String.length s) in *.
  replace (Z.to_nat (Z.min (Z.min (Z.max (Z.of_nat n) 0) (Z.of_nat len))
                       (Z.min (Z.max (Z.of_nat n + Z.of_nat k) 0) (Z.of_nat len))))
    with n by lia.
  replace (Z.to_nat (Z.max (Z.min (Z.max (Z.of_nat n) 0) (Z.of_nat len))
                       (Z.min (Z.max (Z.of_nat n + Z.of_nat k) 0) (Z.of_nat len))
                     - Z.min (Z.min (Z.max (Z.of_nat n) 0) (Z.of_nat len))
                         (Z.min (Z.max (Z.of_nat n + Z.of_nat k) 0) (Z.of_nat len))))
    with (Nat.min k (String.length (Js.drop n s)))
    by (rewrite length_drop; fold len; lia).
  apply take_min.
Qed.

(** The loop, from the position [n] with [acc] collected so far, ends within
    its bound and adds the chunks of the rest of the text. *)
Lemma chunk_loop_chunks_from (k : nat) (bound : nat) (T : string) (n : nat)
  (acc : list Chunk) :
  Z.of_nat k = ProcessDocument.chunkSize ->
  (String.length (Js.drop n T) <= bound)%nat ->
  ProcessDocument.chunk_loop bound T (Z.of_nat n) acc
  = Some (acc ++ chunks_from bound k (Js.drop n T) (Z.of_nat (List.length acc)))%list.
Proof.
  intros Hk.
  assert (Hk0 : (0 < k)%nat) by (unfold ProcessDocument.chunkSize in Hk; lia).
  revert n acc. induction bound as [|b IH]; intros n acc Hb.
  - apply Nat.le_0_r, length_0_empty in Hb as E. rewrite length_drop in Hb.
    cbn [ProcessDocument.chunk_loop]. unfold Js.len.
    destruct (Z.ltb_spec (Z.of_nat n) (Z.of_nat (String.length T))); [lia|].
    cbn [chunks_from]. now rewrite app_nil_r.
  - cbn [ProcessDocument.chunk_loop]. unfold Js.len.
    destruct (Z.ltb_spec (Z.of_nat n) (Z.of_nat (String.length T))) as [L | G].
    + rewrite <- Hk. rewrite (substring_take_drop T n k) by lia.
      rewrite <- Nat2Z.inj_add.
      rewrite IH by (rewrite length_drop in *; lia).
      rewrite <- drop_drop. cbn [chunks_from].
      destruct (Js.drop n T) as [|c r] eqn:D.
      * apply (f_equal String.length) in D. rewrite length_drop in D. simpl in D. lia.
      * rewrite <- app_assoc. cbn [app]. rewrite length_app. cbn [List.length].
        do 4 f_equal. lia.
    + assert (E : Js.drop n T = EmptyString)
        by (apply length_0_empty; rewrite length_drop; lia).
      rewrite E. cbn [chunks_from]. now rewrite app_nil_r.
Qed.

Lemma chunks_from_sorted (bound size : nat) (T : string) (i : Z) :
  StronglySorted Z.lt (map index (chunks_from bound size T i))
  /\ Forall (fun j => i <= j) (map index (chunks_from bound size T i)).
Proof.
  revert T i. induction bound as [|b IH]; intros T i; [split; constructor|].
  destruct T as [|a t]; [split; constructor|].
  cbn [chunks_from map index]. destruct (IH (Js.drop size (String a t)) (i + 1)) as [S F].
  split.
  - constructor; [exact S|]. eapply Forall_impl; [|exact F]. simpl; intros; lia.
  - constructor; [lia|]. eapply Forall_impl; [|exact F]. simpl; intros; lia.
Qed.

(** X13. The chunking loop of the ingestion always ends, and what it
    leaves in [chunks] covers the text: the texts of the chunks put end to
    end give the text back, there are ceil(len/1000) of them, the chunk at
    position [k] has index [k], no chunk is empty or longer than 1000
    characters and every chunk but the last has exactly 1000.  (It is the
    chunk sequence [chunker 1000] describes.) *)
Theorem chunk_text_is_chunker (extractedText : string) :
  exists chunks,
    ProcessDocument.chunk_text extractedText = Some chunks
    /\ chunks = chunker 1000 extractedText
    /\ reassemble chunks = extractedText
    /\ List.length chunks = ((String.length extractedText + 999) / 1000)%nat
    /\ (forall k c, nth_error chunks k = Some c ->
          index c = Z.of_nat k
          /\ (1 <= String.length (text c) <= 1000)%nat
          /\ ((S k < List.length chunks)%nat -> String.length (text c) = 1000%nat)).
Proof.
  remember 1000%nat as size eqn:Hsize.
  assert (Hk : Z.of_nat size = ProcessDocument.chunkSize) by (subst size; reflexivity).
  assert (Hs : (0 < size)%nat) by (subst size; lia).
  exists (chunker size extractedText). split.
  - unfold ProcessDocument.chunk_text, chunker.
    exact (chunk_loop_chunks_from size (String.length extractedText)
             extractedText 0 [] Hk (Nat.le_refl _)).
  - split; [reflexivity|]. unfold chunker.
    split; [now apply chunks_from_reassemble|].
    split.
    + rewrite chunks_from_length by auto. f_equal. subst size. lia.
    + intros k c Hn.
      destruct (chunks_from_nth _ size extractedText 0 k c Hs (Nat.le_refl _) Hn)
        as (Hi & Hl & Hf).
      split; [lia|]. split; [exact Hl | exact Hf].
Qed.

(** ** The cleaning of the text *)

Lemma remove_forall (p : ascii -> bool) (s : string) :
  string_forall (fun c => negb (p c)) (ProcessDocument.remove p s) = true.
Proof.
  induction s as [|c s IH]; [reflexivity|]. simpl.
  destruct (p c) eqn:P; [exact IH|]. simpl. now rewrite P.
Qed.

Lemma remove_id (p : ascii -> bool) (s : string) :
  string_forall (fun c => negb (p c)) s = true -> ProcessDocument.remove p s = s.
Proof.
  induction s as [|c s IH]; [reflexivity|]. simpl.
  rewrite andb_true_iff. intros [P F]. apply negb_true_iff in P. rewrite P.
  now rewrite IH.
Qed.

Lemma remove_keeps (p q : ascii -> bool) (s : string) :
  string_forall q s = true -> string_forall q (ProcessDocument.remove p s) = true.
Proof.
  induction s as [|c s IH]; [reflexivity|]. simpl.
  rewrite andb_true_iff. intros [Q F]. destruct (p c); simpl; [auto|].
  now rewrite Q, IH.
Qed.

Lemma trimStart_keeps (q : ascii -> bool) (s : string) :
  string_forall q s = true -> string_forall q (Js.trimStart s) = true.
Proof.
  induction s as [|c s IH]; [reflexivity|]. intros H. simpl.
  destruct (Js.isWhiteSpace c); [|exact H].
  simpl in H. apply andb_true_iff in H as [_ H]. auto.
Qed.

Lemma trimEnd_keeps (q : ascii -> bool) (s : string) :
  string_forall q s = true -> string_forall q (Js.trimEnd s) = true.
Proof.
  induction s as [|c s IH]; [reflexivity|]. simpl.
  rewrite andb_true_iff. intros [Q F]. specialize (IH F).
  destruct (Js.trimEnd s) as [|d t].
  - destruct (Js.isWhiteSpace c); simpl; [reflexivity | now rewrite Q].
  - cbn [string_forall] in *. now rewrite Q, IH.
Qed.

Lemma trimEnd_cons (c : ascii) (s : string) :
  Js.trimEnd (String c s)
  = match Js.trimEnd s with
    | EmptyString => if Js.isWhiteSpace c then EmptyString else String c EmptyString
    | String d t => String c (String d t)
    end.
Proof. reflexivity. Qed.

Lemma trimEnd_idem (s : string) : Js.trimEnd (Js.trimEnd s) = Js.trimEnd s.
Proof.
  induction s as [|c s IH]; [reflexivity|]. rewrite trimEnd_cons.
  destruct (Js.trimEnd s) as [|d t] eqn:E.
  - destruct (Js.isWhiteSpace c) eqn:W; [reflexivity|]. simpl. now rewrite W.
  - rewrite trimEnd_cons, IH. reflexivity.
Qed.

(** A string that does not start with white space keeps its first
    character under [trimEnd]. *)
Lemma trimEnd_head (c : ascii) (s : string) :
  Js.isWhiteSpace c = false -> exists t, Js.trimEnd (String c s) = String c t.
Proof.
  intros W. simpl. destruct (Js.trimEnd s) as [|d t].
  - rewrite W. now exists EmptyString.
  - now exists (String d t).
Qed.

Lemma trimStart_head (s : string) :
  Js.trimStart s = EmptyString
  \/ exists c t, Js.trimStart s = String c t /\ Js.isWhiteSpace c = false.
Proof.
  induction s as [|c s IH]; [now left|]. simpl.
  destruct (Js.isWhiteSpace c) eqn:W; [exact IH|]. right. now exists c, s.
Qed.

Lemma trim_idem (s : string) : Js.trim (Js.trim s) = Js.trim s.
Proof.
  unfold Js.trim.
  destruct (trimStart_head s) as [E | (c & t & E & W)]; rewrite E; [reflexivity|].
  destruct (trimEnd_head c t W) as [u Eu]. rewrite Eu.
  cbn [Js.trimStart]. rewrite W, <- Eu. apply trimEnd_idem.
Qed.

(** X14. The cleaned text holds none of the control characters of the
    class removed (codes 0 to 8, 11, 12, 14 to 31 and 127), and neither
    starts nor ends with white space; cleaning a cleaned text changes
    nothing. *)
Theorem extract_clean (fileContent : string) :
  let extractedText := ProcessDocument.extract fileContent in
  string_forall (fun c => negb (ProcessDocument.isControl c)) extractedText = true
  /\ Js.trim extractedText = extractedText
  /\ ProcessDocument.extract extractedText = extractedText.
Proof.
  intros t.
  assert (F : string_forall (fun c => negb (ProcessDocument.isControl c)) t = true).
  { unfold t, ProcessDocument.extract, Js.trim.
    apply trimEnd_keeps, trimStart_keeps, remove_forall. }
  assert (T : Js.trim t = t) by apply trim_idem.
  split; [exact F|]. split; [exact T|].
  unfold ProcessDocument.extract at 1.
  assert (N : string_forall (fun c => negb (ProcessDocument.isNull c)) t = true).
  { clear -F. induction t as [|c s IH]; [reflexivity|]. simpl in *.
    apply andb_true_iff in F as [C F]. rewrite (IH F), andb_true_r.
    unfold ProcessDocument.isControl, ProcessDocument.isNull in *.
    destruct (nat_of_ascii c); [discriminate C | reflexivity]. }
  rewrite (remove_id _ t N), (remove_id _ t F). exact T.
Qed.

(** ** Runs of the ingestion *)

Lemma chunk_text_chunker (extractedText : string) :
  ProcessDocument.chunk_text extractedText = Some (chunker 1000 extractedText).
Proof.
  remember 1000%nat as size eqn:Hsize.
  assert (Hk : Z.of_nat size = ProcessDocument.chunkSize) by (subst size; reflexivity).
  exact (chunk_loop_chunks_from size (String.length extractedText)
           extractedText 0 [] Hk (Nat.le_refl _)).
Qed.

Lemma too_short_length (t : string) :
  ProcessDocument.too_short t = true <-> (String.length t < 10)%nat.
Proof.
  unfold ProcessDocument.too_short, Js.len.
  rewrite orb_true_iff, Z.ltb_lt. split.
  - intros [F | L]; [destruct t; [simpl; lia | discriminate] | lia].
  - intros L. right. lia.
Qed.

(** X15. Every document the ingestion stores keeps the invariant of the
    data model: a run either leaves the [documents] table as it was, or
    adds exactly one row, answers with the success response that carries
    the id the storage gave, and the row belongs to the user of the token,
    holds the cleaned text of the file (at least 10 characters) as content,
    the chunks of that content in chunks of 1000, which put end to end give
    the content back, and the file name without its extension as title. *)
Theorem stored_document_invariant
  (env : ProcessDocument.Env) (req : ProcessDocument.Request)
  (w : ProcessDocument.World) :
  let run := ProcessDocument.handler env req w in
  ProcessDocument.documents (snd run) = ProcessDocument.documents w
  \/ exists h user file id row,
       ProcessDocument.authorization req = Some h
       /\ ProcessDocument.auth_getUser env (Js.replace h "Bearer " EmptyString)
          = Some user
       /\ ProcessDocument.formData req = Returned (Some file)
       /\ ProcessDocument.documents_insert env row = ProcessDocument.Inserted id
       /\ ProcessDocument.documents (snd run)
          = (ProcessDocument.documents w ++ [row])%list
       /\ fst run
          = {| status := 200;
               body := Some (JObject [("success", JBool true);
                                      ("documentId", JString id)]) |}
       /\ ProcessDocument.row_user row = user_id user
       /\ ProcessDocument.content row
          = ProcessDocument.extract (ProcessDocument.fileContent file)
       /\ (10 <= String.length (ProcessDocument.content row))%nat
       /\ ProcessDocument.row_chunks row = chunker 1000 (ProcessDocument.content row)
       /\ reassemble (ProcessDocument.row_chunks row) = ProcessDocument.content row
       /\ ProcessDocument.file_name row = ProcessDocument.name file
       /\ ProcessDocument.title row
          = ProcessDocument.strip_extension (ProcessDocument.name file).
Proof.
  intros run. unfold run, ProcessDocument.handler.
  destruct (String.eqb (ProcessDocument.method req) "OPTIONS"); [now left|].
  destruct (ProcessDocument.authorization req) as [h|] eqn:Ha; [|now left].
  destruct (ProcessDocument.auth_getUser env _) as [user|] eqn:Hu; [|now left].
  destruct (ProcessDocument.formData req) as [[file|]|e] eqn:Hf;
    [|now left|now left].
  cbv zeta.
  destruct (ProcessDocument.too_short _) eqn:Hshort; [now left|].
  rewrite chunk_text_chunker.
  destruct (ProcessDocument.documents_insert env _) as [id|isError m] eqn:Hi;
    [|now left].
  right. exists h, user, file, id. eexists. split; [reflexivity|].
  split; [exact Hu|]. split; [reflexivity|]. split; [exact Hi|].
  split; [reflexivity|]. split; [reflexivity|]. split; [reflexivity|].
  split; [reflexivity|]. cbn [ProcessDocument.row_for ProcessDocument.content
                                ProcessDocument.row_chunks ProcessDocument.file_name
                                ProcessDocument.title].
  split.
  - destruct (Nat.lt_ge_cases
                (String.length (ProcessDocument.extract (ProcessDocument.fileContent file)))
                10) as [L | G]; [|exact G].
    apply too_short_length in L. congruence.
  - split; [reflexivity|]. split; [|split; reflexivity].
    unfold chunker. apply chunks_from_reassemble; [|apply Nat.le_refl].
    repeat constructor.
Qed.

(** X16. A file whose cleaned text has fewer than 10 characters (an empty
    file, or one of white space and control characters only) is refused: the
    response is the error response with the message that no meaningful text
    could be extracted, and nothing is stored. *)
Theorem short_text_rejected
  (env : ProcessDocument.Env) (req : ProcessDocument.Request)
  (w : ProcessDocument.World) (h : string) (user : User) (file : ProcessDocument.File) :
  ProcessDocument.method req <> "OPTIONS" ->
  ProcessDocument.authorization req = Some h ->
  ProcessDocument.auth_getUser env (Js.replace h "Bearer " EmptyString) = Some user ->
  ProcessDocument.formData req = Returned (Some file) ->
  (String.length (ProcessDocument.extract (ProcessDocument.fileContent file)) < 10)%nat ->
  let run := ProcessDocument.handler env req w in
  fst run
  = {| status := 500;
       body := Some (JObject [("error", JString
         "Could not extract meaningful text from document. Please ensure the file contains readable text.")]) |}
  /\ ProcessDocument.documents (snd run) = ProcessDocument.documents w.
Proof.
  intros Hm Ha Hu Hf Hl run. unfold run, ProcessDocument.handler.
  apply String.eqb_neq in Hm. rewrite Hm, Ha, Hu, Hf. cbv zeta.
  apply too_short_length in Hl. rewrite Hl. split; reflexivity.
Qed.

(** X16 on a file that holds two letters between blanks. *)
Lemma short_text_rejected_witness :
  ProcessDocument.documents
    (snd (ProcessDocument.handler IngestExample.env
            (IngestExample.request "note.pdf" "   hi   ") IngestExample.world0)) = [].
Proof.
  apply (short_text_rejected IngestExample.env
           (IngestExample.request "note.pdf" "   hi   ") IngestExample.world0
           "Bearer token-1" {| user_id := "user-1" |}
           (IngestExample.file "note.pdf" "   hi   ")).
  - discriminate.
  - reflexivity.
  - reflexivity.
  - reflexivity.
  - vm_compute. lia.
Defined.

(** ** The title *)

Lemma is_extension_dot (a b : string) :
  ProcessDocument.is_extension (a ++ String "." b) = false.
Proof.
  induction a as [|c a IH]; simpl.
  - destruct b; reflexivity.
  - destruct (a ++ String "." b)%string eqn:E.
    + destruct a; discriminate.
    + rewrite IH. apply andb_false_r.
Qed.

(** X17. The title is the file name without its last extension: a name
    [base.ext], whose extension is not empty and holds neither a slash nor a
    dot, gets the title [base], whatever [base] holds (other dots, nothing at
    all); a name without a dot is its own title. *)
Theorem strip_extension_cuts_last (base ext : string) :
  ProcessDocument.is_extension ext = true ->
  ProcessDocument.strip_extension (base ++ String "." ext) = base
  /\ (string_forall (fun c => negb (Ascii.eqb c ".")) base = true ->
      ProcessDocument.strip_extension base = base).
Proof.
  intros E. split.
  - induction base as [|c b IH]; simpl.
    + now rewrite E.
    + now rewrite is_extension_dot, andb_false_r, IH.
  - induction base as [|c b IH]; [reflexivity|]. simpl.
    rewrite andb_true_iff. intros [N F]. apply negb_true_iff in N.
    rewrite N. simpl. now rewrite IH.
Qed.

(** X17 on "plan.2024.pdf". *)
Lemma strip_extension_cuts_last_witness :
  ProcessDocument.strip_extension "plan.2024.pdf" = "plan.2024".
Proof.
  apply (strip_extension_cuts_last "plan.2024" "pdf"). reflexivity.
Defined.

(** ** From ingestion to ranking *)

Lemma StronglySorted_map_filter {A : Type} (f : A -> Z) (p : A -> bool) (l : list A) :
  StronglySorted Z.lt (map f l) -> StronglySorted Z.lt (map f (filter p l)).
Proof.
  induction l as [|x l IH]; intros H; [constructor|].
  simpl in H. inversion H as [|? ? Hs Hx]; subst. simpl.
  destruct (p x); [|auto]. simpl. constructor; [auto|].
  rewrite Forall_map in *. apply Forall_forall. intros y Hy.
  apply filter_In in Hy as [Hy _]. rewrite Forall_forall in Hx. auto.
Qed.

Lemma StronglySorted_firstn {A : Type} (R : A -> A -> Prop) (n : nat) (l : list A) :
  StronglySorted R l -> StronglySorted R (firstn n l).
Proof.
  intros H. revert n. induction H as [|x l Hs IH Hx]; intros [|n]; simpl;
    try constructor; auto.
  apply Forall_forall. intros y Hy. apply In_firstn in Hy.
  rewrite Forall_forall in Hx. auto.
Qed.

(** X18. On the chunks that the ingestion stores for a text, the ranking
    returns chunks in ascending order of their index, and the index of a
    ranked chunk is its position in the document: the chunk sequence holds
    that very chunk at that position.  Each ranked chunk has between 1 and
    1000 characters. *)
Theorem ranking_of_ingested_chunks
  (toLowerCase : string -> string) (extractedText question : string)
  (chunks : list Chunk) :
  ProcessDocument.chunk_text extractedText = Some chunks ->
  let r := relevantChunks toLowerCase chunks question in
  StronglySorted Z.lt (map s_index r)
  /\ Forall (fun c => nth_error chunks (Z.to_nat (s_index c)) = Some (unscored c)
                      /\ (1 <= String.length (s_text c) <= 1000)%nat) r.
Proof.
  intros H r. rewrite chunk_text_chunker in H. injection H as <-.
  assert (U : map unscored r = firstn 3 (filter (matches toLowerCase question)
                                          (chunker 1000 extractedText)))
    by apply unscored_relevantChunks.
  split.
  - replace (map s_index r) with (map index (map unscored r))
      by (rewrite map_map; reflexivity).
    rewrite U, <- firstn_map. apply StronglySorted_firstn, StronglySorted_map_filter.
    apply chunks_from_sorted.
  - apply Forall_forall. intros c Hc.
    assert (I : In (unscored c) (map unscored r)) by now apply in_map.
    rewrite U in I. apply In_firstn in I. apply filter_In in I as [I _].
    apply In_nth_error in I as [k Hk].
    assert (Hs : (0 < 1000)%nat) by lia.
    destruct (chunks_from_nth _ 1000 extractedText 0 k (unscored c) Hs
                (Nat.le_refl _) Hk) as (Hi & Hl & _).
    cbn [unscored index text] in Hi, Hl.
    rewrite Hi, Z.add_0_l, Nat2Z.id. split; [exact Hk | exact Hl].
Qed.

(** X18 on a short text. *)
Lemma ranking_of_ingested_chunks_witness :
  StronglySorted Z.lt
    (map s_index
       (relevantChunks toLowerCase_latin1
          [ {| text := "Knee surgery is covered."; index := 0 |} ] "knee")).
Proof.
  apply (ranking_of_ingested_chunks toLowerCase_latin1
           "Knee surgery is covered." "knee"
           [ {| text := "Knee surgery is covered."; index := 0 |} ]).
  reflexivity.
Defined.

(* ================================================================= *)
(** * Properties of the upload card *)



(** X20. The page is told that the upload is complete exactly when the
    file was of an accepted type, a user was signed in and the function came
    back without error; in every other case of an accepted file an "Error"
    toast is raised instead, and in all of them the uploading flag is down
    at the end. *)
Theorem upload_completion
  (user : option User)
  (functions_invoke : ProcessDocument.File -> DocumentUpload.InvokeOutcome)
  (file : ProcessDocument.File) (st : DocumentUpload.State) :
  let run := DocumentUpload.handleFileSelect user functions_invoke (Some file) st in
  (In DocumentUpload.onUploadComplete (snd run)
   <-> DocumentUpload.accepted file = true
       /\ user <> None
       /\ functions_invoke file = DocumentUpload.InvokeOk)
  /\ (DocumentUpload.accepted file = true ->
      DocumentUpload.isUploading (fst run) = false
      /\ (In DocumentUpload.onUploadComplete (snd run)
          \/ exists description,
               In (DocumentUpload.toast "Error" description (Some "destructive"))
                  (snd run))).
Proof.
  intros run. unfold run, DocumentUpload.handleFileSelect, DocumentUpload.processDocument.
  destruct (DocumentUpload.accepted file) eqn:A.
  - destruct user as [u|]; [destruct (functions_invoke file) eqn:F|]; cbn.
    + split; [split; [intros _; repeat split; discriminate | auto]|].
      intros _. split; [reflexivity | auto].
    + split.
      * split; [intros [H | [H | [H | []]]]; discriminate
               | intros (_ & _ & H); discriminate].
      * intros _. split; [reflexivity|]. right. eexists. right. right. left. reflexivity.
    + split.
      * split; [intros [H | [H | []]]; discriminate | intros (_ & H & _); now elim H].
      * intros _. split; [reflexivity|]. right. eexists. right. left. reflexivity.
  - cbn. split; [|discriminate].
    split; [intros [H | []]; discriminate | intros (H & _); discriminate].
Qed.

(** X20 on a PDF processed without error. *)
Lemma upload_completion_witness :
  DocumentUpload.isUploading
    (fst (DocumentUpload.handleFileSelect (Some {| user_id := "user-1" |})
            (fun _ => DocumentUpload.InvokeOk)
            (Some (IngestExample.file "plan.pdf" "Knee surgery is covered."))
            {| DocumentUpload.isUploading := true; DocumentUpload.isDragging := false |}))
  = false.
Proof.
  apply (upload_completion (Some {| user_id := "user-1" |})
           (fun _ => DocumentUpload.InvokeOk)
           (IngestExample.file "plan.pdf" "Knee surgery is covered.")
           {| DocumentUpload.isUploading := true; DocumentUpload.isDragging := false |}).
  reflexivity.
Defined.

(* ================================================================= *)
(** * Properties of the dashboard *)

Lemma truthy_nonempty (s : string) :
  s <> EmptyString -> Dashboard.truthy (Some s) = true.
Proof. destruct s; [intros H; now elim H | reflexivity]. Qed.

(** [loadDocuments] leaves a truthy selection alone. *)
Lemma loadDocuments_keeps_selection (st st0 : Dashboard.State)
  (outcome : Dashboard.SelectOutcome) :
  Dashboard.truthy (Dashboard.selectedDoc st) = true ->
  Dashboard.selectedDoc (Dashboard.after st0 (Dashboard.loadDocuments st outcome))
  = Dashboard.selectedDoc st0.
Proof.
  intros T. unfold Dashboard.loadDocuments, Dashboard.after.
  destruct outcome as [|[[|first rest]|]]; try reflexivity.
  rewrite T. reflexivity.
Qed.

(** X21. After the selected document is deleted no document is selected,
    whatever the reloaded list holds: the reload tests the selection of the
    render the deletion started in, which still names the deleted document,
    and so selects nothing.  With the upload card closed the page shows "No
    Document Selected", other documents or not. *)
Theorem delete_selected_clears_selection
  (st : Dashboard.State) (doc : string) (reload : Dashboard.SelectOutcome) :
  Dashboard.selectedDoc st = Some doc ->
  doc <> EmptyString ->
  let st' := Dashboard.after st (Dashboard.handleDelete st doc true reload) in
  Dashboard.selectedDoc st' = None
  /\ (Dashboard.showUpload st = false -> Dashboard.main st' = Dashboard.NoDocumentSelected)
  /\ (forall docs, reload = Dashboard.SelectData (Some docs) ->
        Dashboard.documents st' = docs).
Proof.
  intros Hs Hd st'. unfold st', Dashboard.handleDelete, Dashboard.is_selected.
  rewrite Hs, String.eqb_refl.
  assert (T : Dashboard.truthy (Dashboard.selectedDoc st) = true)
    by (rewrite Hs; now apply truthy_nonempty).
  assert (E : Dashboard.selectedDoc
                (Dashboard.after st
                   (Dashboard.toast "Document deleted" "The document has been removed" None
                      :: ([Dashboard.setSelectedDoc None]
                            ++ Dashboard.loadDocuments st reload)%list)) = None).
  { cbn [app Dashboard.after fold_left Dashboard.apply].
    fold (Dashboard.after
            {| Dashboard.documents := Dashboard.documents st;
               Dashboard.selectedDoc := None;
               Dashboard.isLoading := Dashboard.isLoading st;
               Dashboard.showUpload := Dashboard.showUpload st |}
            (Dashboard.loadDocuments st reload)).
    now rewrite loadDocuments_keeps_selection. }
  split; [exact E|]. split.
  - intros Hu. unfold Dashboard.main. rewrite E.
    replace (Dashboard.showUpload _) with false; [reflexivity|].
    rewrite <- Hu. unfold Dashboard.loadDocuments, Dashboard.after.
    destruct reload as [|[[|first rest]|]]; try reflexivity.
    rewrite T. reflexivity.
  - intros docs ->. unfold Dashboard.loadDocuments, Dashboard.after.
    destruct docs as [|first rest]; [reflexivity|]. rewrite T. reflexivity.
Qed.

(** X21 on a list of two documents, the first of which is selected and
    deleted. *)
Lemma delete_selected_clears_selection_witness :
  let other := {| Dashboard.id := "doc-2"; Dashboard.title := "plan";
                  Dashboard.file_name := "plan.pdf"; Dashboard.created_at := "t2" |} in
  let st := {| Dashboard.documents :=
                 [ {| Dashboard.id := "doc-1"; Dashboard.title := "policy";
                      Dashboard.file_name := "policy.pdf"; Dashboard.created_at := "t1" |};
                   other ];
               Dashboard.selectedDoc := Some "doc-1";
               Dashboard.isLoading := false;
               Dashboard.showUpload := false |} in
  Dashboard.main
    (Dashboard.after st
       (Dashboard.handleDelete st "doc-1" true (Dashboard.SelectData (Some [other]))))
  = Dashboard.NoDocumentSelected.
Proof.
  intros other st.
  destruct (delete_selected_clears_selection st "doc-1"
              (Dashboard.SelectData (Some [other])) eq_refl) as (_ & H & _).
  - discriminate.
  - apply H. reflexivity.
Defined.

(** X22. Deleting a document that is not the selected one keeps the
    selection, and a deletion that fails changes nothing on the page but for
    its toast. *)
Theorem delete_other_keeps_selection
  (st : Dashboard.State) (selected doc : string) (reload : Dashboard.SelectOutcome) :
  Dashboard.selectedDoc st = Some selected ->
  selected <> EmptyString ->
  selected <> doc ->
  Dashboard.selectedDoc (Dashboard.after st (Dashboard.handleDelete st doc true reload))
  = Some selected
  /\ Dashboard.after st (Dashboard.handleDelete st doc false reload) = st
  /\ Dashboard.handleDelete st doc false reload
     = [Dashboard.toast "Error" "Failed to delete document" (Some "destructive")].
Proof.
  intros Hs Hn Hd. split; [|split; [now destruct st | reflexivity]].
  unfold Dashboard.handleDelete, Dashboard.is_selected. rewrite Hs.
  apply String.eqb_neq in Hd. rewrite Hd.
  cbn [app Dashboard.after fold_left Dashboard.apply].
  fold (Dashboard.after st (Dashboard.loadDocuments st reload)).
  rewrite loadDocuments_keeps_selection; [exact Hs|].
  rewrite Hs. now apply truthy_nonempty.
Qed.

(** X22 on the second of two documents. *)
Lemma delete_other_keeps_selection_witness :
  let st := {| Dashboard.documents := [];
               Dashboard.selectedDoc := Some "doc-1";
               Dashboard.isLoading := false;
               Dashboard.showUpload := false |} in
  Dashboard.selectedDoc
    (Dashboard.after st (Dashboard.handleDelete st "doc-2" true Dashboard.SelectError))
  = Some "doc-1".
Proof.
  intros st.
  apply (delete_other_keeps_selection st "doc-1" "doc-2" Dashboard.SelectError);
    [reflexivity | discriminate | discriminate].
Defined.

(** X23. When an upload completes and the list is reloaded with at least
    one document, the upload card is closed, the list is the reloaded one
    and loading is off.  Whether the first of the reloaded list gets
    selected is decided by the selection of the render the upload started
    in, [started], not by the selection at the time, [now]: when a document
    was selected at the start the selection of the time is kept; when none
    was, the first of the reloaded list is selected, also over a selection
    made in between. *)
Theorem upload_complete_selection
  (started now : Dashboard.State) (first : Dashboard.Doc) (rest : list Dashboard.Doc) :
  let st' := Dashboard.after now
               (Dashboard.onUploadComplete started
                  (Dashboard.SelectData (Some (first :: rest)))) in
  Dashboard.showUpload st' = false
  /\ Dashboard.documents st' = first :: rest
  /\ Dashboard.isLoading st' = false
  /\ (Dashboard.truthy (Dashboard.selectedDoc started) = true ->
      Dashboard.selectedDoc st' = Dashboard.selectedDoc now)
  /\ (Dashboard.truthy (Dashboard.selectedDoc started) = false ->
      Dashboard.selectedDoc st' = Some (Dashboard.id first)).
Proof.
  intros st'. unfold st', Dashboard.onUploadComplete, Dashboard.loadDocuments,
    Dashboard.after.
  destruct (Dashboard.truthy (Dashboard.selectedDoc started)); cbn;
    repeat split; auto; discriminate.
Qed.

(** X23 on an upload started with no document selected, during which the
    document "doc-2" was selected: the new document takes the selection. *)
Lemma upload_complete_selection_witness :
  let newest := {| Dashboard.id := "doc-3"; Dashboard.title := "plan";
                   Dashboard.file_name := "plan.pdf"; Dashboard.created_at := "t3" |} in
  let started := {| Dashboard.documents := [];
                    Dashboard.selectedDoc := None;
                    Dashboard.isLoading := false;
                    Dashboard.showUpload := true |} in
  let now := {| Dashboard.documents := [];
                Dashboard.selectedDoc := Some "doc-2";
                Dashboard.isLoading := false;
                Dashboard.showUpload := true |} in
  Dashboard.selectedDoc
    (Dashboard.after now
       (Dashboard.onUploadComplete started (Dashboard.SelectData (Some [newest]))))
  = Some "doc-3".
Proof.
  intros newest started now.
  destruct (upload_complete_selection started now newest []) as (_ & _ & _ & _ & H).
  apply H. reflexivity.
Defined.

(* ================================================================= *)
(** * The Chunker of the ingestion *)


